(** * drand core: protocol registry, dispatch server and the v1 protocol

    A shallow embedding of the Go sources of the [core] package
    ([protocol.go], [server.go], [v1.go], [v1_public.go]) together with the
    properties of the dispatch layer, the DKG hand-over, the beacon life
    cycle and the public randomness service.

    Go values are embedded as follows.
    - [error] values are the message strings given to [errors.New] or
      [fmt.Errorf]; a [(T, error)] return is a [result T], or the pair of
      options itself where the code tests both components.
    - A run-time panic (an explicit [panic], or a nil dereference) is the
      [Panic] outcome.
    - Maps are [gmap]s; [ID], [Version] and group hashes are strings.
    - Pointers to mutable structs become explicit state passing: a method
      with a pointer receiver returns the updated receiver.
    - The collaborators that live outside of the [core] package (key store,
      beacon handler, chain store, gRPC stream) are small records that keep
      what was asked of them, with an oracle for the answers the package
      cannot predict (I/O failures). *)

From Stdlib Require Import ZArith Lia.
From stdpp Require Import base option list sorting strings gmap.

Open Scope string_scope.

(** ** Go-level plumbing *)

(** A Go [error] value, identified by its message. *)
Abbreviation Error := string (only parsing).

(** The usual [(value, error)] pair of a Go function. *)
Inductive result (A : Type) : Type :=
| Ok (a : A)
| Err (e : Error).
Arguments Ok {A} a.
Arguments Err {A} e.

(** What a call does: it returns, or the goroutine panics. *)
Inductive Outcome (A : Type) : Type :=
| Ret (a : A)
| Panic (msg : string).
Arguments Ret {A} a.
Arguments Panic {A} msg.

Definition bindO {A B : Type} (o : Outcome A) (k : A -> Outcome B) : Outcome B :=
  match o with
  | Ret a => k a
  | Panic m => Panic m
  end.

Notation "x <-! o ; k" := (bindO o (fun x => k))
  (at level 60, o at next level, right associativity, only parsing).

Definition nil_deref : string := "invalid memory address or nil pointer dereference".

(** Dereference of a possibly nil pointer. *)
Definition deref {A : Type} (p : option A) : Outcome A :=
  match p with
  | Some a => Ret a
  | None => Panic nil_deref
  end.

(** [ID] is the identifier of a running protocol: the group hash of the
    genesis group.  [Version] names a protocol version. *)
Abbreviation ID := string (only parsing).
Abbreviation Version := string (only parsing).

(** ** The collaborators of the package

    The packages [protobuf/drand], [key], [chain] and [chain/beacon] are
    imported by [core]; what follows is the part of them that [core] calls. *)

Module drand.
(** The protobuf messages, with the fields the package reads or writes. *)
Record PartialBeaconPacket := {
  groupHash : string;
  pbRound : N;
  partialSig : string
}.
Record Empty := mkEmpty {}.
Record PublicRandRequest := { reqRound : N }.
Record SyncRequest := { fromRound : N }.
Record PublicRandResponse := {
  Round : N;
  Signature : string;
  PreviousSignature : string;
  Randomness : string
}.
End drand.

Module key.
(** Modelled from the spec: the [key] package is not part of the sources.
    A Group is an "ordered set of participant Nodes (address, public key
    share commitment, index), a combined public key, a signing threshold,
    and (for resharing) a transition timestamp"; a Share is "this node's
    private contribution to the group's combined key", from which the
    combined public key is derived. *)
Record Node := {
  Index : N;
  Address : string;
  Key : string
}.
Record DistPublic := { Coefficients : list string }.
Record Share := {
  Commits : list string;
  PriShare : N * string
}.
Definition Public (s : Share) : DistPublic := {| Coefficients := Commits s |}.
Record Group := {
  Nodes : list Node;
  Threshold : nat;
  PublicKey : option DistPublic;
  TransitionTime : Z
}.
Definition Len (g : Group) : nat := length (Nodes g).

(** What the file store was asked to write. *)
Inductive Write :=
| WShare (s : Share)
| WGroup (g : Group).

(** Modelled from the spec: the key/group persistent store is an external
    collaborator.  [written] is what is on disk, oldest write first;
    [refuses] is the I/O error, if any, that a write meets.  A write that
    fails leaves the disk as it was. *)
Record Store := {
  written : list Write;
  refuses : Write -> option Error
}.
Definition save (w : Write) (st : Store) : Store * option Error :=
  match refuses st w with
  | Some e => (st, Some e)
  | None => ({| written := written st ++ [w]; refuses := refuses st |}, None)
  end.
Definition SaveShare (st : Store) (s : Share) : Store * option Error := save (WShare s) st.
Definition SaveGroup (st : Store) (g : Group) : Store * option Error := save (WGroup g) st.
End key.

Module dkg.
(** The value a finished DKG run sends on its completion channel. *)
Record Node := { Index : N; Public : string }.
Record Result := {
  QUAL : list Node;
  Key : key.Share
}.
Record OptionResult := {
  result_ : option Result;
  error_ : option Error
}.
End dkg.

(** The 64-bit two's complement integers of Go ([int64]). *)
Definition int64_min : Z := - 2 ^ 63.
Definition int64_max : Z := 2 ^ 63 - 1.
Definition wrap64 (z : Z) : Z := (z + 2 ^ 63) mod 2 ^ 64 - 2 ^ 63.
Definition sub64 (a b : Z) : Z := wrap64 (a - b).

Module chain.
(** A completed beacon round, as stored.  The randomness of a round is a
    hash of its signature; the hash function is a parameter wherever the
    package needs it. *)
Record Beacon := {
  Round : N;
  Signature : string;
  PreviousSig : string
}.

(** Modelled from the spec: the beacon-round database is an external
    collaborator, an "ordered, round-indexed store".  It is the list of
    stored rounds in increasing round order; [Put] keeps one entry per
    round number. *)
Fixpoint Put (b : Beacon) (db : list Beacon) : list Beacon :=
  match db with
  | [] => [b]
  | x :: db' =>
      if (Round b <? Round x)%N then b :: x :: db'
      else if (Round b =? Round x)%N then b :: db'
      else x :: Put b db'
  end.

Definition ErrNoBeaconSaved : Error := "beacon not found in database".

(** Modelled from the spec: [Store.Last] gives the entry with the highest
    round ("most recently produced round"), or an error on an empty store. *)
Definition Last (db : list Beacon) : option Beacon * option Error :=
  match last db with
  | Some b => (Some b, None)
  | None => (None, Some ErrNoBeaconSaved)
  end.

(** Modelled from the spec: [Store.Get] "fetches that exact round if stored,
    else fails". *)
Fixpoint Get (db : list Beacon) (round : N) : option Beacon * option Error :=
  match db with
  | [] => (None, Some ErrNoBeaconSaved)
  | x :: db' => if (Round x =? round)%N then (Some x, None) else Get db' round
  end.

(** Modelled from the spec: [Cursor.Seek] followed by [Cursor.Next] until
    nil walks the "ordered, round-indexed store" from the first entry whose
    round is at least [round], in key order. *)
Fixpoint Seek (db : list Beacon) (round : N) : list Beacon :=
  match db with
  | [] => []
  | x :: db' => if (Round x <? round)%N then Seek db' round else x :: db'
  end.
End chain.

(** A server-side gRPC stream towards [remote].  [sent] is what went out;
    [sendErr n] is the transport error, if any, met by a [Send] issued once
    [n] messages are out. *)
Record Stream (M : Type) := {
  sent : list M;
  sendErr : nat -> option Error;
  remote : string
}.
Arguments sent {M} s.
Arguments sendErr {M} s n.
Arguments remote {M} s.

Definition Send {M : Type} (s : Stream M) (m : M) : Stream M * option Error :=
  match sendErr s (length (sent s)) with
  | Some e => (s, Some e)
  | None => ({| sent := sent s ++ [m]; sendErr := sendErr s; remote := remote s |}, None)
  end.

(** [for ... { if err = stream.Send(m); err != nil { return } }] *)
Fixpoint sendAll {M : Type} (s : Stream M) (ms : list M) : Stream M * option Error :=
  match ms with
  | [] => (s, None)
  | m :: ms' =>
      match Send s m with
      | (s', Some e) => (s', Some e)
      | (s', None) => sendAll s' ms'
      end
  end.

Module beacon.
(** What the package asks of a beacon handler. *)
Inductive Call :=
| CStart
| CCatchup
| CStop
| CStopAt (stopTime : Z)
| CTransitionNewGroup (newShare : option key.Share) (newGroup : option key.Group)
| CTransition (oldGroup : option key.Group)
| CProcessPartialBeacon (p : drand.PartialBeaconPacket)
| CSyncChain (req : drand.SyncRequest).

(** Modelled from the spec: the beacon generator ([chain/beacon.Handler]) is
    not part of the sources.  A handle is "bound to the current
    Group/Share", owns the round store, fans new rounds out to the
    registered callbacks, and is [generating] from the moment its loop is
    launched until it is stopped.  [calls] keeps, in order, what the handle
    was asked; [rejects] is the error a call is answered with.  The methods
    below are the ones the package calls. *)
Record Handler := {
  hGroup : option key.Group;
  hShare : option key.Share;
  store : list chain.Beacon;
  callbacks : list string;
  generating : bool;
  calls : list Call;
  rejects : Call -> option Error
}.

Definition update (h : Handler) (db : list chain.Beacon) (cbs : list string)
    (gen : bool) (c : list Call) : Handler :=
  {| hGroup := hGroup h; hShare := hShare h; store := db; callbacks := cbs;
     generating := gen; calls := c; rejects := rejects h |}.

(** A call is logged and answered by the oracle. *)
Definition ask (c : Call) (gen : option Error -> bool) (h : Handler) : Handler * option Error :=
  (update h (store h) (callbacks h) (gen (rejects h c)) (calls h ++ [c]), rejects h c).

Definition Start (h : Handler) : Handler * option Error :=
  ask CStart (fun e => match e with Some _ => generating h | None => true end) h.
Definition Catchup (h : Handler) : Handler :=
  fst (ask CCatchup (fun _ => true) h).
Definition Stop (h : Handler) : Handler :=
  fst (ask CStop (fun _ => false) h).
Definition StopAt (h : Handler) (stopTime : Z) : Handler * option Error :=
  ask (CStopAt stopTime) (fun _ => generating h) h.
Definition TransitionNewGroup (h : Handler) (s : option key.Share) (g : option key.Group) : Handler :=
  fst (ask (CTransitionNewGroup s g) (fun _ => generating h) h).
Definition Transition (h : Handler) (old : option key.Group) : Handler * option Error :=
  ask (CTransition old) (fun e => match e with Some _ => generating h | None => true end) h.
Definition ProcessPartialBeacon (h : Handler) (p : drand.PartialBeaconPacket)
    : Handler * result drand.Empty :=
  let (h', e) := ask (CProcessPartialBeacon p) (fun _ => generating h) h in
  (h', match e with Some e => Err e | None => Ok drand.mkEmpty end).

Definition AddCallback (h : Handler) (addr : string) : Handler :=
  update h (store h) (addr :: filter (fun a => a <> addr) (callbacks h)) (generating h) (calls h).
Definition RemoveCallback (h : Handler) (addr : string) : Handler :=
  update h (store h) (filter (fun a => a <> addr) (callbacks h)) (generating h) (calls h).

(** Modelled from the spec: the generator completes a round, which is
    "appended to an ordered, round-indexed store". *)
Definition produce (h : Handler) (b : chain.Beacon) : Handler :=
  update h (chain.Put b (store h)) (callbacks h) (generating h) (calls h).

(** Modelled from the spec: chain sync "walks forward contiguously through
    the local store and streams each stored round to the requesting peer". *)
Definition SyncChain (h : Handler) (req : drand.SyncRequest) (stream : Stream chain.Beacon)
    : Handler * Stream chain.Beacon * option Error :=
  let (h', _) := ask (CSyncChain req) (fun _ => generating h) h in
  let (stream', e) := sendAll stream (chain.Seek (store h) (drand.fromRound req)) in
  (h', stream', e).
End beacon.

(** ** protocol.go: the protocol interface and the factory registry *)

Module Protocol.
(** The [Protocol] interface, with the methods the server calls ([Key],
    the network call it dispatches, [String]).  A method with a pointer
    receiver returns the new receiver. *)
Class Protocol (P : Type) : Type := {
  Key : P -> ID;
  PartialBeacon : P -> drand.PartialBeaconPacket -> Outcome (P * result drand.Empty);
  String : P -> string
}.
End Protocol.

(** [ProtocolConfig], with the fields the package reads. *)
Record ProtocolConfig := {
  cfgVersion : Version;
  Folder : string
}.

Section Registry.
Context {P : Type}.

Record ProtocolFactory := {
  New : ProtocolConfig -> result P;
  Load : ProtocolConfig -> result P
}.

(** [blacklist] is the hardcoded list of unsupported versions. *)
Definition blacklist : list Version := [].

(** [registerProtocol]: [protocols[v] = f]. *)
Definition registerProtocol (v : Version) (f : ProtocolFactory)
    (protocols : gmap Version ProtocolFactory) : gmap Version ProtocolFactory :=
  <[v := f]> protocols.

(** [getProtocolFactory]: the blacklist is scanned first, then the map. *)
Definition getProtocolFactory (protocols : gmap Version ProtocolFactory)
    (v : Version) : Outcome ProtocolFactory :=
  if bool_decide (v ∈ blacklist) then Panic "blacklisted protocol"
  else match protocols !! v with
       | None => Panic "no registered protocols for this version"
       | Some f => Ret f
       end.
End Registry.
Arguments ProtocolFactory P : clear implicits.

Definition VERSION_1 : Version := "V1".
Definition VERSION_2 : Version := "V2".

(** ** server.go: the dispatch server *)

Module Server.
Section Server.
Context {P : Type} `{Protocol.Protocol P}.

(** The registry of running protocols, the remembered V1 identifier and the
    protocol in setup phase, if any. *)
Record Server := {
  protocols : gmap ID P;
  v1ID : ID;
  setup : option P
}.

(** [NewServer]: [server.protocols = make(map[ID]Protocol)]. *)
Definition NewServer : Server := {| protocols := ∅; v1ID := ""; setup := None |}.

(** The loop of [LoadProtocols] over the configurations found on disk, with
    its local variables [errs] and [v1Found].  This is the most complete of
    the three versions of the function in the sources; the other two have
    the same loop without the duplicate check (and without [v1ID]), and the
    same last statement.  The error of a duplicate V1 protocol is appended
    to [errs], as the misspelt assignment intends. *)
Fixpoint loadLoop (registry : gmap Version (ProtocolFactory P))
    (protoConfigs : list ProtocolConfig) (s : Server) (errs : list string)
    (v1Found : bool) : Outcome (Server * list string * bool) :=
  match protoConfigs with
  | [] => Ret (s, errs, v1Found)
  | c :: rest =>
      factory <-! getProtocolFactory registry (cfgVersion c);
      match Load factory c with
      | Err err => loadLoop registry rest s (errs ++ [err]) v1Found
      | Ok protocol =>
          let s1 := {| protocols := <[Protocol.Key protocol := protocol]> (protocols s);
                       v1ID := v1ID s; setup := setup s |} in
          if bool_decide (cfgVersion c = VERSION_1) then
            if v1Found then
              loadLoop registry rest s1 (errs ++ ["V1 duplicate protocol found"]) v1Found
            else
              loadLoop registry rest
                {| protocols := protocols s1; v1ID := Protocol.Key protocol; setup := setup s1 |}
                errs true
          else loadLoop registry rest s1 errs v1Found
      end
  end.

(** [LoadProtocols]: runs the loop and ends with [return nil].
    [protoConfigs] is what [SearchprotocolConfig] found. *)
Definition LoadProtocols (registry : gmap Version (ProtocolFactory P))
    (protoConfigs : list ProtocolConfig) (s : Server) : Outcome (Server * option Error) :=
  r <-! loadLoop registry protoConfigs s [] false;
  Ret (r.1.1, None).

Definition ErrNoID : Error := "No group hash mentionned and no v1 ID registered".
Definition ErrNoProtocol : Error := "No protocols associated with that ID found".

Definition withHash (i : drand.PartialBeaconPacket) (h : string) : drand.PartialBeaconPacket :=
  {| drand.groupHash := h; drand.pbRound := drand.pbRound i; drand.partialSig := drand.partialSig i |}.

(** The tail of [PartialBeacon], from [id := string(in.groupHash)] on. *)
Definition route (s : Server) (i : drand.PartialBeaconPacket)
    : Outcome (Server * drand.PartialBeaconPacket * result drand.Empty) :=
  let id := drand.groupHash i in
  match protocols s !! id with
  | None => Ret (s, i, Err ErrNoProtocol)
  | Some p =>
      r <-! Protocol.PartialBeacon p i;
      Ret ({| protocols := <[id := r.1]> (protocols s); v1ID := v1ID s; setup := setup s |},
           i, r.2)
  end.

(** [PartialBeacon] dispatches on the group hash of the packet; an empty
    hash is filled with the V1 identifier.  The packet is a pointer: the
    caller sees the filled field. *)
Definition PartialBeacon (s : Server) (i : drand.PartialBeaconPacket)
    : Outcome (Server * drand.PartialBeaconPacket * result drand.Empty) :=
  if bool_decide (String.length (drand.groupHash i) = 0) then
    if bool_decide (String.length (v1ID s) = 0) then Ret (s, i, Err ErrNoID)
    else route s (withHash i (v1ID s))
  else route s i.
End Server.
Arguments Server P : clear implicits.
End Server.

(** ** v1.go and v1_public.go: the V1 protocol *)

Module v1.
(** [dkgInfo]: what is known of an upcoming or running DKG.  Its board,
    phaser and protocol objects only matter here through the value the
    protocol sends on its completion channel. *)
Record dkgInfo := {
  target : key.Group;
  started : bool
}.

Inductive Level := Debug | Info | Error_ | Fatal.

(** [v1Protocol].  The state mutex is gone (calls are atomic here).
    [beacon] is a pointer to a handler: an address in [handlers], the heap
    of the handlers allocated so far; a stale handler stays in the heap. *)
Record v1Protocol := {
  c : ProtocolConfig;
  store : key.Store;
  group : option key.Group;
  index : Z;
  share : option key.Share;
  dkgDone : bool;
  dkgInfo_ : option dkgInfo;
  log : list (Level * string);
  beacon : option nat;
  handlers : list beacon.Handler
}.

Definition logf (l : Level) (msg : string) (v : v1Protocol) : v1Protocol :=
  {| c := c v; store := store v; group := group v; index := index v; share := share v;
     dkgDone := dkgDone v; dkgInfo_ := dkgInfo_ v; log := log v ++ [(l, msg)];
     beacon := beacon v; handlers := handlers v |}.
Definition set_store (st : key.Store) (v : v1Protocol) : v1Protocol :=
  {| c := c v; store := st; group := group v; index := index v; share := share v;
     dkgDone := dkgDone v; dkgInfo_ := dkgInfo_ v; log := log v;
     beacon := beacon v; handlers := handlers v |}.
Definition set_group (g : option key.Group) (v : v1Protocol) : v1Protocol :=
  {| c := c v; store := store v; group := g; index := index v; share := share v;
     dkgDone := dkgDone v; dkgInfo_ := dkgInfo_ v; log := log v;
     beacon := beacon v; handlers := handlers v |}.
Definition set_share (s : option key.Share) (v : v1Protocol) : v1Protocol :=
  {| c := c v; store := store v; group := group v; index := index v; share := s;
     dkgDone := dkgDone v; dkgInfo_ := dkgInfo_ v; log := log v;
     beacon := beacon v; handlers := handlers v |}.
Definition set_dkgInfo (i : option dkgInfo) (v : v1Protocol) : v1Protocol :=
  {| c := c v; store := store v; group := group v; index := index v; share := share v;
     dkgDone := dkgDone v; dkgInfo_ := i; log := log v;
     beacon := beacon v; handlers := handlers v |}.
Definition set_beacon (b : option nat) (v : v1Protocol) : v1Protocol :=
  {| c := c v; store := store v; group := group v; index := index v; share := share v;
     dkgDone := dkgDone v; dkgInfo_ := dkgInfo_ v; log := log v;
     beacon := b; handlers := handlers v |}.
Definition set_handlers (hs : list beacon.Handler) (v : v1Protocol) : v1Protocol :=
  {| c := c v; store := store v; group := group v; index := index v; share := share v;
     dkgDone := dkgDone v; dkgInfo_ := dkgInfo_ v; log := log v;
     beacon := beacon v; handlers := hs |}.

(** The handler a pointer refers to; nil and dangling pointers panic. *)
Definition handlerAt (b : option nat) (v : v1Protocol) : Outcome (nat * beacon.Handler) :=
  p <-! deref b;
  h <-! deref (handlers v !! p);
  Ret (p, h).

Definition store_handler (p : nat) (h : beacon.Handler) (v : v1Protocol) : v1Protocol :=
  set_handlers (<[p := h]> (handlers v)) v.

(** The nested loops of [WaitDKG]: each node of the target group is
    appended once per entry of QUAL that carries its index. *)
Definition qualNodesOf (nodes : list key.Node) (QUAL : list dkg.Node) : list key.Node :=
  node ← nodes;
  qualNode ← QUAL;
  if bool_decide (dkg.Index qualNode = key.Index node) then [node] else [].

(** [WaitDKG].  [res] is the value received from the completion channel of
    the running DKG ([res := <-waitCh]).  The target group is reached
    through a pointer, so the [dkgInfo] sees its new nodes and key until it
    is dropped.  The DKG callback and the stop of the board, which come
    between the last save and the reset of [dkgInfo], leave no trace in the
    state kept here. *)
Definition WaitDKG (v : v1Protocol) (res : dkg.OptionResult)
    : Outcome (v1Protocol * result key.Group) :=
  match dkgInfo_ v with
  | None => Ret (v, Err "no dkg info set")
  | Some info =>
      let v := logf Debug "waiting_dkg_end" v in
      match dkg.error_ res with
      | Some e => Ret (v, Err ("drand: error from dkg: " ++ e))
      | None =>
          r <-! deref (dkg.result_ res);
          let qualNodes := qualNodesOf (key.Nodes (target info)) (dkg.QUAL r) in
          let s := dkg.Key r in
          let v := set_share (Some s) v in
          let (st, err) := key.SaveShare (store v) s in
          let v := set_store st v in
          match err with
          | Some e => Ret (v, Err e)
          | None =>
              let targetGroup :=
                {| key.Nodes := qualNodes;
                   key.Threshold := key.Threshold (target info);
                   key.PublicKey := Some (key.Public s);
                   key.TransitionTime := key.TransitionTime (target info) |} in
              let v := set_dkgInfo (Some {| target := targetGroup; started := started info |}) v in
              let v := set_group (Some targetGroup) v in
              let v := logf Debug "dkg_end" v in
              let (st, err) := key.SaveGroup (store v) targetGroup in
              let v := set_store st v in
              match err with
              | Some e => Ret (v, Err e)
              | None => Ret (set_dkgInfo None v, Ok targetGroup)
              end
          end
      end
  end.

Section Lifecycle.
(** [newBeacon] is called by [StartBeacon] and [transition] and is defined
    outside of the sources; it is a parameter here.  It returns a pointer to
    a handler, or an error. *)
Variable newBeacon : v1Protocol -> v1Protocol * result nat.

(** [StartBeacon]: builds the handler, then launches the generation loop
    ([go b.Catchup()], or [b.Start()]). *)
Definition StartBeacon (catchup : bool) (v : v1Protocol) : Outcome v1Protocol :=
  let (v, r) := newBeacon v in
  match r with
  | Err err => Ret (logf Error_ "init_beacon" v)
  | Ok b =>
      let v := logf Info "beacon_start" v in
      ph <-! handlerAt (Some b) v;
      if catchup then Ret (store_handler ph.1 (beacon.Catchup ph.2) v)
      else
        let (h, err) := beacon.Start ph.2 in
        let v := store_handler ph.1 h v in
        match err with
        | Some _ => Ret (logf Error_ "beacon_start" v)
        | None => Ret v
        end
  end.

(** [transition], called after a resharing DKG: [v.group] is the new group.
    [log.Fatal] ends the process. *)
Definition transition (oldGroup : option key.Group) (oldPresent newPresent : bool)
    (v : v1Protocol) : Outcome v1Protocol :=
  g <-! deref (group v);
  let timeToStop := sub64 (key.TransitionTime g) 1 in
  if negb newPresent then
    ph <-! handlerAt (beacon v) v;
    let (h, err) := beacon.StopAt ph.2 timeToStop in
    let v := store_handler ph.1 h v in
    match err with
    | Some _ => Ret (logf Error_ "leaving_group" v)
    | None => Ret (logf Info "leaving_group" v)
    end
  else
    let newGroup := group v in
    let newShare := share v in
    if oldPresent then
      ph <-! handlerAt (beacon v) v;
      Ret (store_handler ph.1 (beacon.TransitionNewGroup ph.2 newShare newGroup) v)
    else
      let (v, r) := newBeacon v in
      match r with
      | Err _ => Panic "transition"
      | Ok b =>
          ph <-! handlerAt (Some b) v;
          let (h, err) := beacon.Transition ph.2 oldGroup in
          let v := store_handler ph.1 h v in
          let v := match err with
                   | Some _ => logf Error_ "sync_before" v
                   | None => v
                   end in
          Ret (logf Info "transition_new" v)
      end.
End Lifecycle.

(** [StopBeacon]: nothing to do without a handler; otherwise the handler is
    stopped and the field reset. *)
Definition StopBeacon (v : v1Protocol) : Outcome v1Protocol :=
  match beacon v with
  | None => Ret v
  | Some p =>
      ph <-! handlerAt (Some p) v;
      Ret (set_beacon None (store_handler ph.1 (beacon.Stop ph.2) v))
  end.

(** Modelled from the spec: [newBeacon] is not part of the sources.
    "Starting creates a beacon-generation handle bound to the current
    Group/Share", and "only one beacon-generation handle may exist per
    instance at a time; starting while one is already running is a no-op
    guarded by the instance lock, not an error".  [StartBeacon] has no
    guard of its own, so the guard is here: with a handle present,
    [newBeacon] gives that handle; without one, a fresh handler, bound to
    the group and share of the instance and opened on the rounds already
    stored, is allocated and [v.beacon] points to it.  Without a group
    there is nothing to bind the handle to. *)
Definition newBeacon (v : v1Protocol) : v1Protocol * result nat :=
  match beacon v with
  | Some p => (v, Ok p)
  | None =>
      match group v with
      | None => (v, Err "no group set")
      | Some g =>
          let db := match last (handlers v) with
                    | Some h => beacon.store h
                    | None => []
                    end in
          let h := {| beacon.hGroup := Some g; beacon.hShare := share v;
                      beacon.store := db; beacon.callbacks := [];
                      beacon.generating := false; beacon.calls := [];
                      beacon.rejects := fun _ => None |} in
          let p := length (handlers v) in
          (set_beacon (Some p) (set_handlers (handlers v ++ [h]) v), Ok p)
      end
  end.

(** [PartialBeacon] hands the packet to the handler, if there is one. *)
Definition PartialBeacon (v : v1Protocol) (i : drand.PartialBeaconPacket)
    : Outcome (v1Protocol * result drand.Empty) :=
  match beacon v with
  | None => Ret (v, Err "drand: beacon not setup yet")
  | Some p =>
      ph <-! handlerAt (Some p) v;
      let (h, r) := beacon.ProcessPartialBeacon ph.2 i in
      Ret (store_handler ph.1 h v, r)
  end.

(** [SyncChain] answers nil when there is no handler. *)
Definition SyncChain (v : v1Protocol) (req : drand.SyncRequest) (stream : Stream chain.Beacon)
    : Outcome (v1Protocol * Stream chain.Beacon * option Error) :=
  match beacon v with
  | Some p =>
      ph <-! handlerAt (Some p) v;
      let '(h, stream', err) := beacon.SyncChain ph.2 req stream in
      Ret (store_handler ph.1 h v, stream', err)
  | None => Ret (v, stream, None)
  end.

(** What the generator does while [PublicRandStream] runs: the rounds it
    completes between the steps of the call.  The cursor reads the store
    inside one read transaction, so a round completed while the cursor is
    open is seen by the call like one completed just after. *)
Record Interleaving := {
  beforeCursor : list chain.Beacon;
  beforeCallback : list chain.Beacon;
  afterCallback : list chain.Beacon
}.

(** How far a streaming call got: it returned, or it still waits on its
    [done] channel. *)
Inductive StreamEnd :=
| Returned (err : option Error)
| Streaming.

Definition produceAll (p : nat) (bs : list chain.Beacon) (v : v1Protocol) : v1Protocol :=
  match handlers v !! p with
  | Some h => store_handler p (foldl beacon.produce h bs) v
  | None => v
  end.

Section Public.
(** The hash that derives the randomness of a round from its signature. *)
Variable sha256 : string -> string.

Definition Randomness (b : chain.Beacon) : string := sha256 (chain.Signature b).

(** [beaconToProto], and the response built in the stream callback. *)
Definition beaconToProto (b : chain.Beacon) : drand.PublicRandResponse :=
  {| drand.Round := chain.Round b;
     drand.Signature := chain.Signature b;
     drand.PreviousSignature := chain.PreviousSig b;
     drand.Randomness := Randomness b |}.

Definition ErrNotStarted : Error := "drand: beacon generation not started yet".
(** [Beacon.String], which is outside of the package. *)
Variable beaconString : chain.Beacon -> string.

(** [fmt.Errorf("can't retrieve beacon: %w %s", err, r)]: a nil error is
    printed by [%w] as [%!w(<nil>)], a nil beacon by [%s] as [<nil>]. *)
Definition cantRetrieve (err : option Error) (r : option chain.Beacon) : Error :=
  "can't retrieve beacon: " ++ default "%!w(<nil>)" err ++ " "
  ++ match r with
     | Some b => beaconString b
     | None => "<nil>"
     end.

(** [PublicRand]: round 0 asks for the last entry of the store, any other
    round for that entry. *)
Definition PublicRand (v : v1Protocol) (i : drand.PublicRandRequest)
    : Outcome (v1Protocol * result drand.PublicRandResponse) :=
  match beacon v with
  | None => Ret (v, Err ErrNotStarted)
  | Some p =>
      ph <-! handlerAt (Some p) v;
      let (r, err) :=
        if bool_decide (drand.reqRound i = 0%N) then chain.Last (beacon.store ph.2)
        else chain.Get (beacon.store ph.2) (drand.reqRound i) in
      match err, r with
      | None, Some b => Ret (logf Info "public_rand" v, Ok (beaconToProto b))
      | _, _ => Ret (logf Debug "public_rand" v, Err (cantRetrieve err r))
      end
  end.

(** The live phase: each round the generator completes is stored and given
    to the callback, which sends it; a failed send drops the callback and
    ends the call with the error. *)
Fixpoint live (p : nat) (addr : string) (bs : list chain.Beacon) (v : v1Protocol)
    (stream : Stream drand.PublicRandResponse)
    : v1Protocol * Stream drand.PublicRandResponse * StreamEnd :=
  match bs with
  | [] => (v, stream, Streaming)
  | b :: bs' =>
      let v := produceAll p [b] v in
      match Send stream (beaconToProto b) with
      | (stream, Some err) =>
          let v := match handlers v !! p with
                   | Some h => store_handler p (beacon.RemoveCallback h addr) v
                   | None => v
                   end in
          (produceAll p bs' v, stream, Returned (Some err))
      | (stream, None) => live p addr bs' v stream
      end
  end.

(** [PublicRandStream]: the rounds of the store from the requested one on
    when that round is not 0 and not after the last stored round, then the
    rounds the callback is given. *)
Definition PublicRandStream (v : v1Protocol) (req : drand.PublicRandRequest)
    (stream : Stream drand.PublicRandResponse) (il : Interleaving)
    : Outcome (v1Protocol * Stream drand.PublicRandResponse * StreamEnd) :=
  match beacon v with
  | None => Ret (v, stream, Returned (Some "beacon has not started on this node yet"))
  | Some p =>
      ph <-! handlerAt (Some p) v;
      match chain.Last (beacon.store ph.2) with
      | (_, Some err) => Ret (v, stream, Returned (Some err))
      | (lastb, None) =>
          let addr := remote stream in
          let v := logf Debug "request" v in
          let v := produceAll p (beforeCursor il) v in
          lastb <-! (if bool_decide (drand.reqRound req = 0%N) then Ret None
                     else b <-! deref lastb; Ret (Some b));
          replay <-!
            match lastb with
            | Some lastb =>
                if bool_decide (drand.reqRound req <= chain.Round lastb)%N then
                  ph <-! handlerAt (Some p) v;
                  Ret (chain.Seek (beacon.store ph.2) (drand.reqRound req))
                else Ret []
            | None => Ret []
            end;
          match sendAll stream (beaconToProto <$> replay) with
          | (stream, Some err) => Ret (logf Debug "stream" v, stream, Returned (Some err))
          | (stream, None) =>
              let v := produceAll p (beforeCallback il) v in
              ph <-! handlerAt (beacon v) v;
              let v := store_handler ph.1 (beacon.AddCallback ph.2 addr) v in
              Ret (live ph.1 addr (afterCallback il) v stream)
          end
      end
  end.
End Public.

(** The V1 protocol as a [Protocol].  Modelled from the spec: [Key] and
    [String] of [v1Protocol] are not part of the sources; "each network's
    on-disk configuration lives under a folder named by its
    NetworkIdentifier". *)
#[global] Instance v1Protocol_Protocol : Protocol.Protocol v1Protocol := {|
  Protocol.Key := fun v => Folder (c v);
  Protocol.PartialBeacon := PartialBeacon;
  Protocol.String := fun v => "V1 protocol " ++ Folder (c v)
|}.
End v1.

(** * Instances and predicates used in the statements *)

Definition cfg (folder : string) : ProtocolConfig :=
  {| cfgVersion := VERSION_1; Folder := folder |}.

Definition emptyStore : key.Store :=
  {| key.written := []; key.refuses := fun _ => None |}.

(** A V1 instance fresh from its factory: no group, no share, no beacon. *)
Definition freshV1 (folder : string) : v1.v1Protocol :=
  {| v1.c := cfg folder; v1.store := emptyStore; v1.group := None; v1.index := 0;
     v1.share := None; v1.dkgDone := false; v1.dkgInfo_ := None; v1.log := [];
     v1.beacon := None; v1.handlers := [] |}.

(** A factory whose [Load] fails on the folder named "broken". *)
Definition factoryv1 : ProtocolFactory v1.v1Protocol :=
  {| New := fun c => Ok (freshV1 (Folder c));
     Load := fun c => if bool_decide (Folder c = "broken")
                      then Err "Err loading V1"
                      else Ok (freshV1 (Folder c)) |}.

Definition factoryv2 : ProtocolFactory v1.v1Protocol :=
  {| New := fun c => Err "V2 not implemented";
     Load := fun c => Err "V2 not implemented" |}.

Definition registry1 : gmap Version (ProtocolFactory v1.v1Protocol) :=
  registerProtocol VERSION_1 factoryv1 ∅.

Definition syncStream0 : Stream chain.Beacon :=
  {| sent := []; sendErr := fun _ => None; remote := "10.0.0.2:4444" |}.

Definition serverA : Server.Server v1.v1Protocol :=
  {| Server.protocols := {[ "net-a" := freshV1 "net-a" ]};
     Server.v1ID := "net-a"; Server.setup := None |}.

(** A server whose V1 identifier names no registered protocol. *)
Definition aliasOnly : Server.Server v1.v1Protocol :=
  {| Server.protocols := ∅; Server.v1ID := "net-x"; Server.setup := None |}.

(** After loading, a remembered V1 identifier names a registered protocol. *)
Definition aliasRegistered {P : Type} (s : Server.Server P) : Prop :=
  Server.v1ID s = "" \/ is_Some (Server.protocols s !! Server.v1ID s).

(** The call reaches protocol [p], registered under [id], with packet [i]:
    the answer is the one of [p], and the registry keeps the instance as the
    call left it. *)
Definition forwardedTo {P : Type} `{Protocol.Protocol P} (s : Server.Server P) (id : ID) (p : P)
    (i : drand.PartialBeaconPacket)
    : Outcome (Server.Server P * drand.PartialBeaconPacket * result drand.Empty) :=
  r <-! Protocol.PartialBeacon p i;
  Ret ({| Server.protocols := <[id := r.1]> (Server.protocols s);
          Server.v1ID := Server.v1ID s; Server.setup := Server.setup s |}, i, r.2).

Definition packet (hash : string) : drand.PartialBeaconPacket :=
  {| drand.groupHash := hash; drand.pbRound := 7; drand.partialSig := "sig7" |}.

Definition node (i : N) : key.Node :=
  {| key.Index := i; key.Address := "node"; key.Key := "pub" |}.

Definition targetGroup3 : key.Group :=
  {| key.Nodes := [node 0; node 1; node 2]; key.Threshold := 2;
     key.PublicKey := None; key.TransitionTime := 1000 |}.

Definition share0 : key.Share :=
  {| key.Commits := ["c0"; "c1"]; key.PriShare := (0%N, "secret") |}.

(** A DKG run in which the nodes 0 and 2 qualified. *)
Definition resultQ02 : dkg.OptionResult :=
  {| dkg.result_ := Some {| dkg.QUAL := [ {| dkg.Index := 0; dkg.Public := "p0" |};
                                         {| dkg.Index := 2; dkg.Public := "p2" |} ];
                            dkg.Key := share0 |};
     dkg.error_ := None |}.

Definition group02 : key.Group :=
  {| key.Nodes := [node 0; node 2]; key.Threshold := 2;
     key.PublicKey := Some (key.Public share0); key.TransitionTime := 1000 |}.

(** An instance with a DKG set up, on a store that answers [refuses]. *)
Definition inDKG (refuses : key.Write -> option Error) : v1.v1Protocol :=
  v1.set_store {| key.written := []; key.refuses := refuses |}
    (v1.set_dkgInfo (Some {| v1.target := targetGroup3; v1.started := true |})
       (freshV1 "net-a")).

Definition afterDKG (refuses : key.Write -> option Error) (written : list key.Write)
    (info : option v1.dkgInfo) (g : option key.Group) (log : list (v1.Level * string))
    : v1.v1Protocol :=
  {| v1.c := cfg "net-a"; v1.store := {| key.written := written; key.refuses := refuses |};
     v1.group := g; v1.index := 0; v1.share := Some share0; v1.dkgDone := false;
     v1.dkgInfo_ := info; v1.log := log; v1.beacon := None; v1.handlers := [] |}.

Definition accepts : key.Write -> option Error := fun _ => None.

Definition doneDKG : v1.v1Protocol :=
  afterDKG accepts [key.WShare share0; key.WGroup group02] None (Some group02)
    [(v1.Debug, "waiting_dkg_end"); (v1.Debug, "dkg_end")].

(** A store on which shares can be written and groups cannot. *)
Definition refusesGroup : key.Write -> option Error :=
  fun w => match w with
           | key.WGroup _ => Some "disk full"
           | key.WShare _ => None
           end.

Definition failedDKG : v1.v1Protocol :=
  afterDKG refusesGroup [key.WShare share0]
    (Some {| v1.target := group02; v1.started := true |}) (Some group02)
    [(v1.Debug, "waiting_dkg_end"); (v1.Debug, "dkg_end")].

(** A handler as [newBeacon] makes it for [g], with its loop running. *)
Definition handlerOf (g : key.Group) (s : option key.Share) (db : list chain.Beacon)
    (gen : bool) (calls : list beacon.Call) : beacon.Handler :=
  {| beacon.hGroup := Some g; beacon.hShare := s; beacon.store := db;
     beacon.callbacks := []; beacon.generating := gen; beacon.calls := calls;
     beacon.rejects := fun _ => None |}.

(** An instance of the group [g] whose beacon is the handler [h]. *)
Definition serving (g : key.Group) (hs : list beacon.Handler) (b : option nat)
    (log : list (v1.Level * string)) : v1.v1Protocol :=
  {| v1.c := cfg "net-a"; v1.store := emptyStore; v1.group := Some g; v1.index := 0;
     v1.share := Some share0; v1.dkgDone := true; v1.dkgInfo_ := None; v1.log := log;
     v1.beacon := b; v1.handlers := hs |}.

Definition leaving : v1.v1Protocol :=
  serving group02 [handlerOf targetGroup3 (Some share0) [] true [beacon.CStart]] (Some 0%nat) [].

Definition idle : v1.v1Protocol := serving group02 [] None [].

Definition started1 : v1.v1Protocol :=
  serving group02 [handlerOf group02 (Some share0) [] true [beacon.CStart]] (Some 0%nat)
    [(v1.Info, "beacon_start")].


(** The instance has at most one generator, the handler its beacon points
    to: no other handler it ever had is generating. *)
Definition oneHandle (v : v1.v1Protocol) : Prop :=
  forall q h, v1.handlers v !! q = Some h -> beacon.generating h = true -> v1.beacon v = Some q.

Definition stopped1 : v1.v1Protocol :=
  serving group02 [handlerOf group02 (Some share0) [] false [beacon.CStart; beacon.CStop]] None
    [(v1.Info, "beacon_start")].

Definition round (n : N) : chain.Beacon :=
  {| chain.Round := n; chain.Signature := "sig"; chain.PreviousSig := "prev" |}.

(** An instance whose handler has stored the rounds [db]. *)
Definition servingRounds (db : list chain.Beacon) : v1.v1Protocol :=
  serving group02 [handlerOf group02 (Some share0) db true [beacon.CStart]] (Some 0%nat) [].

Definition hash0 : string -> string := fun s => "H(" ++ s ++ ")".

(** A rendering of a stored round, for the messages that print one. *)
Definition string0 : chain.Beacon -> string := fun b => "{ round: " ++ chain.Signature b ++ " }".


(** The store once the generator has completed the rounds [bs]. *)
Definition storeAfter (db bs : list chain.Beacon) : list chain.Beacon :=
  foldl (fun db b => chain.Put b db) db bs.



Definition publicStream0 : Stream drand.PublicRandResponse :=
  {| sent := []; sendErr := fun _ => None; remote := "10.0.0.9:5555" |}.

Definition rounds (ns : list N) : list chain.Beacon := round <$> ns.

Definition rounds1to10 : list chain.Beacon := rounds [1; 2; 3; 4; 5; 6; 7; 8; 9; 10]%N.

(** * More of v1.go and v1_public.go

    The calls of the V1 protocol around the ones above: the DKG packets and
    the chain information. *)

(** The DKG packet of the protobuf messages, as far as the package looks
    into it: not at all. *)
Record DKGPacket := { dkgPayload : string }.

(** What a call of [BroadcastDKG] sets off outside of the instance: the
    start of the phaser in its goroutine, the hand-over to the board. *)
Inductive DkgEffect :=
| PhaserStart
| BoardBroadcast (p : DKGPacket).

(** [BroadcastDKG].  [board] is the answer of [dkgInfo.board.BroadcastDKG],
    which is outside of the package.  The first packet of a session starts
    the phaser. *)
Definition BroadcastDKG (board : DKGPacket -> option Error) (v : v1.v1Protocol)
    (i : DKGPacket) : v1.v1Protocol * list DkgEffect * result drand.Empty :=
  match v1.dkgInfo_ v with
  | None => (v, [], Err "drand: no dkg running")
  | Some info =>
      let '(v, effects) :=
        if v1.started info then (v, [])
        else (v1.set_dkgInfo (Some {| v1.target := v1.target info; v1.started := true |})
                (v1.logf v1.Info "init_dkg" v),
              [PhaserStart]) in
      match board i with
      | Some err => (v, (effects ++ [BoardBroadcast i])%list, Err err)
      | None => (v, (effects ++ [BoardBroadcast i])%list, Ok drand.mkEmpty)
      end
  end.

(** [ChainInfo].  [toProto] stands for [chain.NewChainInfo(group).ToProto()]. *)
Definition ChainInfo {Packet : Type} (toProto : key.Group -> Packet) (v : v1.v1Protocol)
    : result Packet :=
  match v1.group v with
  | None => Err "drand: no dkg group setup yet"
  | Some g => Ok (toProto g)
  end.

(** * More instances used in the statements *)

(** The server after loading the V1 networks "net-a" and "net-c". *)
Definition serverAC : Server.Server v1.v1Protocol :=
  {| Server.protocols := <[ "net-c" := freshV1 "net-c" ]> {[ "net-a" := freshV1 "net-a" ]};
     Server.v1ID := "net-a"; Server.setup := None |}.

(** A DKG run that ended in error. *)
Definition resultFailed : dkg.OptionResult :=
  {| dkg.result_ := None; dkg.error_ := Some "dkg: too few deals" |}.

(** The group [WaitDKG] builds from the target of the session and the
    result of the run. *)
Definition qualifiedGroup (info : v1.dkgInfo) (r : dkg.Result) : key.Group :=
  {| key.Nodes := v1.qualNodesOf (key.Nodes (v1.target info)) (dkg.QUAL r);
     key.Threshold := key.Threshold (v1.target info);
     key.PublicKey := Some (key.Public (dkg.Key r));
     key.TransitionTime := key.TransitionTime (v1.target info) |}.

Definition dkgPacket0 : DKGPacket := {| dkgPayload := "deal" |}.

Definition boardOk : DKGPacket -> option Error := fun _ => None.

(** A transport that is broken from the first send on. *)
Definition brokenStream : Stream drand.PublicRandResponse :=
  {| sent := []; sendErr := fun _ => Some "transport is closing"; remote := "10.0.0.9:5555" |}.

(** A transport that breaks once [n] messages are out. *)
Definition breaksAfter (n : nat) : Stream drand.PublicRandResponse :=
  {| sent := [];
     sendErr := fun k => if bool_decide (k < n)%nat then None else Some "transport is closing";
     remote := "10.0.0.9:5555" |}.

(** * Properties *)

(** ** C9: the factory registry *)

Lemma lookup_registerProtocol_eq {P : Type} (v : Version) (f : ProtocolFactory P)
    (protocols : gmap Version (ProtocolFactory P)) :
  registerProtocol v f protocols !! v = Some f.
Proof. apply lookup_insert_eq. Qed.

(** C9, as the code has it: [registerProtocol] never fails; the factory it
    is given is the one registered under the version afterwards, whatever
    was registered before, and the other versions keep theirs. *)
Theorem registerProtocol_overwrites :
  forall (P : Type) (v v' : Version) (f : ProtocolFactory P)
         (protocols : gmap Version (ProtocolFactory P)),
    registerProtocol v f protocols !! v' = if decide (v = v') then Some f else protocols !! v'.
Proof.
  intros P v v' f protocols. unfold registerProtocol. apply lookup_insert.
Qed.

(** C9 fails as stated: registering a second factory under "V1" goes
    through and replaces the first one. *)
Lemma registerProtocol_duplicate_replaces :
  registry1 !! VERSION_1 = Some factoryv1 /\
  registerProtocol VERSION_1 factoryv2 registry1 !! VERSION_1 = Some factoryv2 /\
  getProtocolFactory (registerProtocol VERSION_1 factoryv2 registry1) VERSION_1 = Ret factoryv2 /\
  factoryv2 <> factoryv1.
Proof.
  split; [|split; [|split]].
  - unfold registry1. rewrite lookup_registerProtocol_eq. reflexivity.
  - rewrite lookup_registerProtocol_eq. reflexivity.
  - unfold getProtocolFactory. rewrite lookup_registerProtocol_eq. reflexivity.
  - intros Heq. apply (f_equal (fun f => New f (cfg "x"))) in Heq. discriminate Heq.
Qed.

(** ** C10: chain sync without a generator *)

(** C10: [SyncChain] on an instance without a beacon handler returns a nil
    error, sends nothing on the stream and leaves the instance as it was. *)
Theorem SyncChain_without_beacon :
  forall (v : v1.v1Protocol) (req : drand.SyncRequest) (stream : Stream chain.Beacon),
    v1.beacon v = None ->
    v1.SyncChain v req stream = Ret (v, stream, None).
Proof.
  intros v req stream Hnil. unfold v1.SyncChain. rewrite Hnil. reflexivity.
Qed.

Lemma SyncChain_without_beacon_witness :
  v1.beacon (freshV1 "net-a") = None /\
  v1.SyncChain (freshV1 "net-a") {| drand.fromRound := 3 |} syncStream0
  = Ret (freshV1 "net-a", syncStream0, None).
Proof.
  split; [reflexivity|].
  apply (SyncChain_without_beacon (freshV1 "net-a") {| drand.fromRound := 3 |} syncStream0).
  reflexivity.
Defined.

(** ** C7: loading the persisted protocols *)

(** A configuration whose [Load] fails adds one error to [errs], registers
    nothing, and the loop goes on with the next configuration. *)
Lemma loadLoop_failed_load {P : Type} `{Protocol.Protocol P}
    (registry : gmap Version (ProtocolFactory P)) (c : ProtocolConfig)
    (rest : list ProtocolConfig) (s : Server.Server P) (errs : list string) (v1Found : bool)
    (factory : ProtocolFactory P) (err : Error) :
  getProtocolFactory registry (cfgVersion c) = Ret factory ->
  Load factory c = Err err ->
  Server.loadLoop registry (c :: rest) s errs v1Found
  = Server.loadLoop registry rest s (errs ++ [err]) v1Found.
Proof.
  intros Hf Hl. simpl. rewrite Hf. simpl. rewrite Hl. reflexivity.
Qed.

(** Whatever was collected in [errs], [LoadProtocols] returns nil. *)
Lemma LoadProtocols_returns_nil {P : Type} `{Protocol.Protocol P}
    (registry : gmap Version (ProtocolFactory P)) (protoConfigs : list ProtocolConfig)
    (s s' : Server.Server P) (e : option Error) :
  Server.LoadProtocols registry protoConfigs s = Ret (s', e) -> e = None.
Proof.
  unfold Server.LoadProtocols.
  destruct (Server.loadLoop registry protoConfigs s [] false) as [r|m]; simpl.
  - intros Heq. injection Heq as _ He. symmetry. exact He.
  - discriminate.
Qed.

(** C7 on two folders, the first of which fails to load: the second one is
    registered and the error is collected, but the call returns nil, not
    the collected report. *)
Theorem LoadProtocols_drops_collected_errors :
  Server.loadLoop registry1 [cfg "broken"; cfg "net-a"] Server.NewServer [] false
  = Ret (serverA, ["Err loading V1"], true) /\
  Server.LoadProtocols registry1 [cfg "broken"; cfg "net-a"] Server.NewServer
  = Ret (serverA, None).
Proof.
  split; reflexivity.
Qed.

(** A configuration of a version without a registered factory stops the
    whole loading: [getProtocolFactory] panics. *)
Lemma loadLoop_unregistered_version_panics :
  Server.LoadProtocols registry1
    [{| cfgVersion := VERSION_2; Folder := "net-b" |}; cfg "net-a"] Server.NewServer
  = Panic "no registered protocols for this version".
Proof. reflexivity. Qed.

(** ** C1: dispatch of partial beacons *)

Lemma loadLoop_aliasRegistered {P : Type} `{Protocol.Protocol P}
    (registry : gmap Version (ProtocolFactory P)) (protoConfigs : list ProtocolConfig) :
  forall (s : Server.Server P) (errs : list string) (v1Found : bool)
         (s' : Server.Server P) (errs' : list string) (v1Found' : bool),
    aliasRegistered s ->
    Server.loadLoop registry protoConfigs s errs v1Found = Ret (s', errs', v1Found') ->
    aliasRegistered s'.
Proof.
  induction protoConfigs as [|c rest IH]; intros s errs v1Found s' errs' v1Found' Hs; simpl.
  - intros Heq. injection Heq as -> _ _. exact Hs.
  - destruct (getProtocolFactory registry (cfgVersion c)) as [factory|m]; simpl; [|discriminate].
    destruct (Load factory c) as [protocol|err].
    + assert (Hins : aliasRegistered
        {| Server.protocols := <[Protocol.Key protocol := protocol]> (Server.protocols s);
           Server.v1ID := Server.v1ID s; Server.setup := Server.setup s |}).
      { destruct Hs as [Hs|Hs]; [left; exact Hs|right]. simpl.
        rewrite lookup_insert. case_decide; [eexists; reflexivity|exact Hs]. }
      case_bool_decide.
      * destruct v1Found.
        -- apply IH. exact Hins.
        -- apply IH. right. simpl. rewrite lookup_insert_eq. eexists; reflexivity.
      * apply IH. exact Hins.
    + apply IH. exact Hs.
Qed.

Lemma LoadProtocols_aliasRegistered {P : Type} `{Protocol.Protocol P}
    (registry : gmap Version (ProtocolFactory P)) (protoConfigs : list ProtocolConfig)
    (s' : Server.Server P) (e : option Error) :
  Server.LoadProtocols registry protoConfigs Server.NewServer = Ret (s', e) ->
  aliasRegistered s'.
Proof.
  unfold Server.LoadProtocols.
  destruct (Server.loadLoop registry protoConfigs Server.NewServer [] false)
    as [[[s1 errs1] f1]|m] eqn:Hloop; simpl; [|discriminate].
  intros Heq. injection Heq as <- _.
  eapply loadLoop_aliasRegistered; [|exact Hloop]. left. reflexivity.
Qed.

Lemma length_zero_empty (x : string) : String.length x = 0 <-> x = "".
Proof. destruct x; simpl; split; intros Hx; try reflexivity; discriminate Hx. Qed.

(** A dispatched call keeps the V1 identifier registered. *)
Lemma PartialBeacon_aliasRegistered {P : Type} `{Protocol.Protocol P}
    (s s' : Server.Server P) (i i' : drand.PartialBeaconPacket) (r : result drand.Empty) :
  aliasRegistered s -> Server.PartialBeacon s i = Ret (s', i', r) -> aliasRegistered s'.
Proof.
  intros Hs.
  assert (Hroute : forall j, Server.route s j = Ret (s', i', r) -> aliasRegistered s').
  { intros j. unfold Server.route.
    destruct (Server.protocols s !! drand.groupHash j) as [p|] eqn:Hp.
    - destruct (Protocol.PartialBeacon p j) as [[p' r']|m]; simpl; [|discriminate].
      intros Heq. injection Heq as <- _ _. destruct Hs as [Hs|Hs]; [left; exact Hs|right].
      simpl. rewrite lookup_insert. case_decide; [eexists; reflexivity|exact Hs].
    - intros Heq. injection Heq as <- _ _. exact Hs. }
  unfold Server.PartialBeacon. case_bool_decide; [case_bool_decide|]; try apply Hroute.
  intros Heq. injection Heq as <- _ _. exact Hs.
Qed.

(** C1: the dispatch of a partial beacon, case by case.  An empty group
    hash with a V1 identifier set is filled with that identifier and looked
    up under it: the call goes to the protocol registered under the
    identifier, and a server on which the identifier names a registered
    protocol (any server built by [NewServer], [LoadProtocols] and
    dispatched calls) always has one; were there none, the answer would be
    the unknown-network error on the filled packet.  An empty group hash
    without V1 identifier is the missing-identifier error.  A group hash
    that names no registered protocol is the unknown-network error.  Any
    other call goes to the protocol its group hash names. *)
Theorem PartialBeacon_dispatch :
  forall (P : Type) (HP : Protocol.Protocol P) (s : Server.Server P)
         (i : drand.PartialBeaconPacket),
    (drand.groupHash i = "" -> Server.v1ID s <> "" ->
     Server.PartialBeacon s i
     = match Server.protocols s !! Server.v1ID s with
       | Some p => forwardedTo s (Server.v1ID s) p (Server.withHash i (Server.v1ID s))
       | None => Ret (s, Server.withHash i (Server.v1ID s), Err Server.ErrNoProtocol)
       end) /\
    (aliasRegistered s -> drand.groupHash i = "" -> Server.v1ID s <> "" ->
     exists p, Server.protocols s !! Server.v1ID s = Some p /\
       Server.PartialBeacon s i
       = forwardedTo s (Server.v1ID s) p (Server.withHash i (Server.v1ID s))) /\
    (drand.groupHash i = "" -> Server.v1ID s = "" ->
       Server.PartialBeacon s i = Ret (s, i, Err Server.ErrNoID)) /\
    (drand.groupHash i <> "" -> Server.protocols s !! drand.groupHash i = None ->
       Server.PartialBeacon s i = Ret (s, i, Err Server.ErrNoProtocol)) /\
    (drand.groupHash i <> "" ->
     forall p, Server.protocols s !! drand.groupHash i = Some p ->
       Server.PartialBeacon s i = forwardedTo s (drand.groupHash i) p i).
Proof.
  intros P HP s i. unfold Server.PartialBeacon, Server.route, forwardedTo.
  assert (Hfill : drand.groupHash i = "" -> Server.v1ID s <> "" ->
    (if bool_decide (String.length (drand.groupHash i) = 0)
     then if bool_decide (String.length (Server.v1ID s) = 0)
          then Ret (s, i, Err Server.ErrNoID)
          else Server.route s (Server.withHash i (Server.v1ID s))
     else Server.route s i)
    = match Server.protocols s !! Server.v1ID s with
      | Some p => forwardedTo s (Server.v1ID s) p (Server.withHash i (Server.v1ID s))
      | None => Ret (s, Server.withHash i (Server.v1ID s), Err Server.ErrNoProtocol)
      end).
  { intros Hi Hs.
    rewrite bool_decide_eq_true_2 by (apply length_zero_empty; exact Hi).
    rewrite bool_decide_eq_false_2 by (rewrite length_zero_empty; exact Hs).
    unfold Server.route, forwardedTo. cbn [Server.withHash drand.groupHash].
    destruct (Server.protocols s !! Server.v1ID s); reflexivity. }
  split; [exact Hfill|]. split; [|split; [|split]].
  - intros [Hnone|[p Hp]] Hi Hs; [destruct (Hs Hnone)|].
    exists p. split; [exact Hp|].
    change (Server.PartialBeacon s i
            = forwardedTo s (Server.v1ID s) p (Server.withHash i (Server.v1ID s))).
    unfold Server.PartialBeacon. rewrite (Hfill Hi Hs), Hp. reflexivity.
  - intros Hi Hs.
    rewrite bool_decide_eq_true_2 by (apply length_zero_empty; exact Hi).
    rewrite bool_decide_eq_true_2 by (apply length_zero_empty; exact Hs).
    reflexivity.
  - intros Hi Hnone.
    rewrite bool_decide_eq_false_2 by (rewrite length_zero_empty; exact Hi).
    rewrite Hnone. reflexivity.
  - intros Hi p Hp.
    rewrite bool_decide_eq_false_2 by (rewrite length_zero_empty; exact Hi).
    rewrite Hp. reflexivity.
Qed.

(** The cases, on a server loaded with the V1 network "net-a" (whose
    instance has no beacon yet and answers so), on a new server, and on a
    server whose V1 identifier names nothing. *)
Lemma PartialBeacon_dispatch_witness :
  aliasRegistered serverA /\
  Server.PartialBeacon serverA (packet "")
  = Ret (serverA, packet "net-a", Err "drand: beacon not setup yet") /\
  Server.PartialBeacon (P := v1.v1Protocol) Server.NewServer (packet "")
  = Ret (Server.NewServer, packet "", Err Server.ErrNoID) /\
  Server.PartialBeacon serverA (packet "net-b")
  = Ret (serverA, packet "net-b", Err Server.ErrNoProtocol) /\
  Server.PartialBeacon serverA (packet "net-a")
  = Ret (serverA, packet "net-a", Err "drand: beacon not setup yet") /\
  Server.PartialBeacon aliasOnly (packet "")
  = Ret (aliasOnly, packet "net-x", Err Server.ErrNoProtocol).
Proof.
  assert (Halias : aliasRegistered serverA) by (right; eexists; reflexivity).
  split; [exact Halias|]. split; [|split; [|split; [|split]]].
  - destruct (PartialBeacon_dispatch v1.v1Protocol _ serverA (packet "")) as (_ & Hcase & _).
    destruct (Hcase Halias eq_refl ltac:(discriminate)) as (p & Hp & Hrun).
    rewrite Hrun. cbn in Hp. injection Hp as <-. reflexivity.
  - destruct (PartialBeacon_dispatch v1.v1Protocol _ Server.NewServer (packet ""))
      as (_ & _ & Hcase & _).
    exact (Hcase eq_refl eq_refl).
  - destruct (PartialBeacon_dispatch v1.v1Protocol _ serverA (packet "net-b"))
      as (_ & _ & _ & Hcase & _).
    exact (Hcase ltac:(discriminate) eq_refl).
  - destruct (PartialBeacon_dispatch v1.v1Protocol _ serverA (packet "net-a"))
      as (_ & _ & _ & _ & Hcase).
    rewrite (Hcase ltac:(discriminate) (freshV1 "net-a") eq_refl). reflexivity.
  - destruct (PartialBeacon_dispatch v1.v1Protocol _ aliasOnly (packet "")) as (Hcase & _).
    rewrite (Hcase eq_refl ltac:(discriminate)). reflexivity.
Defined.

(** ** C2, C3: the end of a DKG *)

(** A node is kept by the nested loops exactly when it is in the target
    group and QUAL has an entry with its index. *)
Lemma elem_of_qualNodesOf (nodes : list key.Node) (QUAL : list dkg.Node) (n : key.Node) :
  n ∈ v1.qualNodesOf nodes QUAL <->
  n ∈ nodes /\ exists q, q ∈ QUAL /\ dkg.Index q = key.Index n.
Proof.
  unfold v1.qualNodesOf. rewrite list_elem_of_bind. split.
  - intros (node & Hin & Hnode). apply list_elem_of_bind in Hin as (q & Hin & Hq).
    case_bool_decide as Hidx; [|inversion Hin].
    apply list_elem_of_singleton in Hin as ->. split; [exact Hnode|]. exists q. split; assumption.
  - intros (Hn & q & Hq & Hidx). exists n. split; [|exact Hn].
    apply list_elem_of_bind. exists q. split; [|exact Hq].
    rewrite bool_decide_eq_true_2 by exact Hidx. apply list_elem_of_singleton. reflexivity.
Qed.

(** The inner loop over a QUAL without repeated index keeps a node at most
    once. *)
Lemma inner_loop_NoDup (QUAL : list dkg.Node) (node : key.Node) :
  NoDup (dkg.Index <$> QUAL) ->
  (qualNode ← QUAL; if bool_decide (dkg.Index qualNode = key.Index node) then [node] else [])
  = if bool_decide (key.Index node ∈ dkg.Index <$> QUAL) then [node] else [].
Proof.
  induction QUAL as [|q QUAL IH]; intros Hnd; [reflexivity|].
  rewrite fmap_cons in Hnd. apply NoDup_cons in Hnd as [Hq Hnd].
  rewrite bind_cons, (IH Hnd), fmap_cons.
  destruct (decide (dkg.Index q = key.Index node)) as [Heq|Hne].
  - rewrite (bool_decide_eq_true_2 _ Heq).
    rewrite bool_decide_eq_false_2 by (rewrite <- Heq; exact Hq).
    rewrite bool_decide_eq_true_2 by (rewrite Heq; apply list_elem_of_here).
    reflexivity.
  - rewrite (bool_decide_eq_false_2 _ Hne). simpl.
    destruct (decide (key.Index node ∈ dkg.Index <$> QUAL)) as [Hin|Hnin].
    + rewrite !bool_decide_eq_true_2; [reflexivity| |exact Hin].
      apply list_elem_of_further. exact Hin.
    + rewrite !bool_decide_eq_false_2; [reflexivity| |exact Hnin].
      intros Hin. apply elem_of_cons in Hin as [Heq|Hin]; [|exact (Hnin Hin)].
      apply Hne. symmetry. exact Heq.
Qed.

Lemma qualNodesOf_filter (nodes : list key.Node) (QUAL : list dkg.Node) :
  NoDup (dkg.Index <$> QUAL) ->
  v1.qualNodesOf nodes QUAL
  = filter (fun n => key.Index n ∈ dkg.Index <$> QUAL) nodes.
Proof.
  intros Hnd. unfold v1.qualNodesOf.
  induction nodes as [|node nodes IH]; [reflexivity|].
  rewrite bind_cons, IH, (inner_loop_NoDup QUAL node Hnd), filter_cons.
  case_bool_decide as Hin.
  - rewrite decide_True by exact Hin. reflexivity.
  - rewrite decide_False by exact Hin. reflexivity.
Qed.

(** What a call of [WaitDKG] that reached the saves has done. *)
Lemma WaitDKG_inv (v v' : v1.v1Protocol) (res : dkg.OptionResult) (g : key.Group) :
  v1.WaitDKG v res = Ret (v', Ok g) ->
  exists info r,
    v1.dkgInfo_ v = Some info /\ dkg.error_ res = None /\ dkg.result_ res = Some r /\
    g = {| key.Nodes := v1.qualNodesOf (key.Nodes (v1.target info)) (dkg.QUAL r);
           key.Threshold := key.Threshold (v1.target info);
           key.PublicKey := Some (key.Public (dkg.Key r));
           key.TransitionTime := key.TransitionTime (v1.target info) |} /\
    v1.share v' = Some (dkg.Key r) /\ v1.group v' = Some g /\ v1.dkgInfo_ v' = None /\
    key.written (v1.store v')
    = (key.written (v1.store v) ++ [key.WShare (dkg.Key r); key.WGroup g])%list.
Proof.
  unfold v1.WaitDKG.
  destruct (v1.dkgInfo_ v) as [info|] eqn:Hinfo; [|discriminate].
  destruct (dkg.error_ res) as [e|] eqn:Herr; [discriminate|].
  destruct (dkg.result_ res) as [r|] eqn:Hres; [|discriminate].
  cbn [deref bindO]. unfold key.SaveShare, key.SaveGroup, key.save. cbn.
  destruct (key.refuses (v1.store v) (key.WShare (dkg.Key r))) as [e|]; [discriminate|].
  cbn.
  match goal with |- context [key.refuses (v1.store v) (key.WGroup ?g0)] =>
    destruct (key.refuses (v1.store v) (key.WGroup g0)) as [e|] end; [discriminate|].
  intros Heq. injection Heq as <- <-.
  exists info, r. cbn. rewrite <- app_assoc. repeat split; reflexivity.
Qed.

(** C2: when [WaitDKG] returns a group, its nodes are the nodes of the
    target group whose index is carried by an entry of QUAL (in the order
    of the target group, and each one once when QUAL repeats no index), and
    its public key is the one of the share of the run, which is now the
    share of the instance. *)
Theorem WaitDKG_group_is_qualified_target :
  forall (v v' : v1.v1Protocol) (res : dkg.OptionResult) (g : key.Group),
    v1.WaitDKG v res = Ret (v', Ok g) ->
    exists info r,
      v1.dkgInfo_ v = Some info /\ dkg.result_ res = Some r /\
      (forall n, n ∈ key.Nodes g <->
                 n ∈ key.Nodes (v1.target info) /\
                 exists q, q ∈ dkg.QUAL r /\ dkg.Index q = key.Index n) /\
      (NoDup (dkg.Index <$> dkg.QUAL r) ->
       key.Nodes g = filter (fun n => key.Index n ∈ dkg.Index <$> dkg.QUAL r)
                            (key.Nodes (v1.target info))) /\
      v1.share v' = Some (dkg.Key r) /\
      key.PublicKey g = Some (key.Public (dkg.Key r)) /\
      v1.group v' = Some g.
Proof.
  intros v v' res g Hrun.
  destruct (WaitDKG_inv v v' res g Hrun)
    as (info & r & Hinfo & _ & Hres & Hg & Hshare & Hgroup & _ & _).
  exists info, r. subst g. cbn [key.Nodes key.PublicKey].
  split; [exact Hinfo|]. split; [exact Hres|].
  split; [intros n; apply elem_of_qualNodesOf|].
  split; [apply qualNodesOf_filter|].
  split; [exact Hshare|]. split; [reflexivity|exact Hgroup].
Qed.

Lemma WaitDKG_accepting_store :
  v1.WaitDKG (inDKG accepts) resultQ02 = Ret (doneDKG, Ok group02).
Proof. reflexivity. Qed.

Lemma WaitDKG_group_is_qualified_target_witness :
  v1.WaitDKG (inDKG accepts) resultQ02 = Ret (doneDKG, Ok group02) /\
  NoDup [0%N; 2%N] /\
  key.Nodes group02 = filter (fun n => key.Index n ∈ [0%N; 2%N]) [node 0; node 1; node 2] /\
  key.PublicKey group02 = Some (key.Public share0).
Proof.
  assert (Hnd : NoDup [0%N; 2%N]).
  { apply NoDup_cons. split; [|apply NoDup_singleton].
    intros Hin. apply list_elem_of_singleton in Hin. discriminate Hin. }
  split; [reflexivity|]. split; [exact Hnd|].
  destruct (WaitDKG_group_is_qualified_target (inDKG accepts) doneDKG resultQ02 group02 eq_refl)
    as (info & r & Hinfo & Hres & _ & Hfilter & _ & Hpub & _).
  cbn in Hinfo, Hres. injection Hinfo as <-. injection Hres as <-.
  split; [exact (Hfilter Hnd)|exact Hpub].
Defined.

(** C3 fails as stated: on a store that takes the share and refuses the
    group, [WaitDKG] returns the error with the share of the run persisted
    and no group persisted. *)
Lemma WaitDKG_share_persisted_without_group :
  v1.WaitDKG (inDKG refusesGroup) resultQ02 = Ret (failedDKG, Err "disk full") /\
  key.WShare share0 ∈ key.written (v1.store failedDKG) /\
  ~ (exists g, key.WGroup g ∈ key.written (v1.store failedDKG)).
Proof.
  split; [reflexivity|]. split.
  - apply list_elem_of_here.
  - intros (g & Hin). cbn in Hin. apply list_elem_of_singleton in Hin. discriminate Hin.
Qed.

(** C3, as the code has it, for a DKG run that completed (a session, a
    result, no error of the DKG).  If the store refuses the share,
    [WaitDKG] returns the error of the store and nothing is written.  If
    the store takes the share and refuses the group, [WaitDKG] returns the
    error of the store and the share of the run is written, without group.
    Otherwise [WaitDKG] returns the group, and the share and then the group
    are written, in this order.  So a group is written only after the share
    of its run, and a group is returned only when both were written. *)
Theorem WaitDKG_share_then_group :
  forall (v : v1.v1Protocol) (res : dkg.OptionResult) (info : v1.dkgInfo) (r : dkg.Result),
    v1.dkgInfo_ v = Some info -> dkg.error_ res = None -> dkg.result_ res = Some r ->
    match key.refuses (v1.store v) (key.WShare (dkg.Key r)),
          key.refuses (v1.store v) (key.WGroup (qualifiedGroup info r)) with
    | Some e, _ =>
        exists v', v1.WaitDKG v res = Ret (v', Err e) /\
          key.written (v1.store v') = key.written (v1.store v)
    | None, Some e =>
        exists v', v1.WaitDKG v res = Ret (v', Err e) /\
          key.written (v1.store v')
          = (key.written (v1.store v) ++ [key.WShare (dkg.Key r)])%list
    | None, None =>
        exists v', v1.WaitDKG v res = Ret (v', Ok (qualifiedGroup info r)) /\
          key.written (v1.store v')
          = (key.written (v1.store v)
             ++ [key.WShare (dkg.Key r); key.WGroup (qualifiedGroup info r)])%list
    end.
Proof.
  intros v res info r Hinfo Herr Hres. unfold qualifiedGroup, v1.WaitDKG.
  rewrite Hinfo, Herr, Hres.
  cbn [deref bindO]. unfold key.SaveShare, key.SaveGroup, key.save. cbn.
  destruct (key.refuses (v1.store v) (key.WShare (dkg.Key r))) as [e|].
  { eexists. split; reflexivity. }
  cbn.
  match goal with |- context [key.refuses (v1.store v) (key.WGroup ?g0)] =>
    destruct (key.refuses (v1.store v) (key.WGroup g0)) as [e|] end.
  - eexists. split; reflexivity.
  - eexists. split; [reflexivity|]. cbn. rewrite <- app_assoc. reflexivity.
Qed.

(** The three cases: a store that takes both, one that refuses the group,
    one that refuses everything. *)
Lemma WaitDKG_share_then_group_witness :
  (exists v', v1.WaitDKG (inDKG accepts) resultQ02 = Ret (v', Ok group02) /\
     key.written (v1.store v') = [key.WShare share0; key.WGroup group02]) /\
  (exists v', v1.WaitDKG (inDKG refusesGroup) resultQ02 = Ret (v', Err "disk full") /\
     key.written (v1.store v') = [key.WShare share0]) /\
  (exists v', v1.WaitDKG (inDKG (fun _ => Some "read-only")) resultQ02
              = Ret (v', Err "read-only") /\
     key.written (v1.store v') = []).
Proof.
  split; [|split].
  - exact (WaitDKG_share_then_group (inDKG accepts) resultQ02
             {| v1.target := targetGroup3; v1.started := true |}
             {| dkg.QUAL := [ {| dkg.Index := 0; dkg.Public := "p0" |};
                              {| dkg.Index := 2; dkg.Public := "p2" |} ];
                dkg.Key := share0 |} eq_refl eq_refl eq_refl).
  - exact (WaitDKG_share_then_group (inDKG refusesGroup) resultQ02
             {| v1.target := targetGroup3; v1.started := true |}
             {| dkg.QUAL := [ {| dkg.Index := 0; dkg.Public := "p0" |};
                              {| dkg.Index := 2; dkg.Public := "p2" |} ];
                dkg.Key := share0 |} eq_refl eq_refl eq_refl).
  - exact (WaitDKG_share_then_group (inDKG (fun _ => Some "read-only")) resultQ02
             {| v1.target := targetGroup3; v1.started := true |}
             {| dkg.QUAL := [ {| dkg.Index := 0; dkg.Public := "p0" |};
                              {| dkg.Index := 2; dkg.Public := "p2" |} ];
                dkg.Key := share0 |} eq_refl eq_refl eq_refl).
Defined.

(** ** C4: leaving the network at a resharing *)

Lemma sub64_no_wrap (t : Z) :
  (int64_min < t <= int64_max)%Z -> sub64 t 1 = (t - 1)%Z.
Proof.
  unfold sub64, wrap64, int64_min, int64_max. intros Ht.
  replace (t - 1 + 2 ^ 63)%Z with (t + (2 ^ 63 - 1))%Z by lia.
  rewrite Z.mod_small by lia. lia.
Qed.

Lemma handlerAt_Some (v : v1.v1Protocol) (p : nat) (h : beacon.Handler) :
  v1.handlers v !! p = Some h -> v1.handlerAt (Some p) v = Ret (p, h).
Proof. intros Hh. unfold v1.handlerAt. cbn. rewrite Hh. reflexivity. Qed.

Lemma store_handler_lookup (v : v1.v1Protocol) (p : nat) (h h' : beacon.Handler) :
  v1.handlers v !! p = Some h -> v1.handlers (v1.store_handler p h' v) !! p = Some h'.
Proof.
  intros Hh. cbn. apply list_lookup_insert_eq. apply lookup_lt_Some in Hh. exact Hh.
Qed.

(** A node that is not in the new group asks its handler for one thing:
    to stop at the transition time of the new group minus one, in 64-bit
    arithmetic.  Whether it was in the old group does not matter. *)
Lemma transition_not_in_new_group (nb : v1.v1Protocol -> v1.v1Protocol * result nat)
    (oldGroup : option key.Group) (oldPresent : bool) (v : v1.v1Protocol)
    (g : key.Group) (p : nat) (h : beacon.Handler) :
  v1.group v = Some g -> v1.beacon v = Some p -> v1.handlers v !! p = Some h ->
  exists v' h',
    v1.transition nb oldGroup oldPresent false v = Ret v' /\
    v1.beacon v' = Some p /\ v1.handlers v' !! p = Some h' /\
    beacon.calls h' = (beacon.calls h ++ [beacon.CStopAt (sub64 (key.TransitionTime g) 1)])%list /\
    length (v1.handlers v') = length (v1.handlers v).
Proof.
  intros Hg Hb Hh. unfold v1.transition. rewrite Hg, Hb. cbn [deref bindO negb].
  rewrite (handlerAt_Some v p h Hh). cbn [bindO fst snd].
  unfold beacon.StopAt, beacon.ask.
  destruct (beacon.rejects h (beacon.CStopAt (sub64 (key.TransitionTime g) 1))) as [e|];
    eexists _, _; (split; [reflexivity|]); cbn;
    (split; [exact Hb|]); (split; [apply list_lookup_insert_eq; eapply lookup_lt_Some; exact Hh|]);
    (split; [reflexivity|apply length_insert]).
Qed.

(** C4: at a resharing in which the node was in the old group and is not in
    the new one, [transition] asks the running handler to stop at the
    transition time of the new group minus one, and asks nothing else of
    it; no other handler is created. *)
Theorem transition_leaving_stops_at_time_minus_one :
  forall (nb : v1.v1Protocol -> v1.v1Protocol * result nat) (oldGroup : option key.Group)
         (v : v1.v1Protocol) (g : key.Group) (p : nat) (h : beacon.Handler),
    v1.group v = Some g -> v1.beacon v = Some p -> v1.handlers v !! p = Some h ->
    (int64_min < key.TransitionTime g <= int64_max)%Z ->
    exists v' h',
      v1.transition nb oldGroup true false v = Ret v' /\
      v1.beacon v' = Some p /\ v1.handlers v' !! p = Some h' /\
      beacon.calls h' = (beacon.calls h ++ [beacon.CStopAt (key.TransitionTime g - 1)])%list /\
      length (v1.handlers v') = length (v1.handlers v).
Proof.
  intros nb oldGroup v g p h Hg Hb Hh Ht.
  destruct (transition_not_in_new_group nb oldGroup true v g p h Hg Hb Hh)
    as (v' & h' & Hrun & Hb' & Hh' & Hcalls & Hlen).
  exists v', h'. rewrite (sub64_no_wrap _ Ht) in Hcalls.
  repeat (split; [assumption|]). exact Hlen.
Qed.

Lemma transition_leaving_stops_at_time_minus_one_witness :
  (int64_min < key.TransitionTime group02 <= int64_max)%Z /\
  exists v' h',
    v1.transition v1.newBeacon (Some targetGroup3) true false leaving = Ret v' /\
    v1.beacon v' = Some 0%nat /\ v1.handlers v' !! 0%nat = Some h' /\
    beacon.calls h' = [beacon.CStart; beacon.CStopAt (1000 - 1)] /\
    length (v1.handlers v') = 1%nat.
Proof.
  assert (Ht : (int64_min < key.TransitionTime group02 <= int64_max)%Z).
  { vm_compute. split; [reflexivity|discriminate]. }
  split; [exact Ht|].
  exact (transition_leaving_stops_at_time_minus_one v1.newBeacon (Some targetGroup3)
           leaving group02 0%nat
           (handlerOf targetGroup3 (Some share0) [] true [beacon.CStart])
           eq_refl eq_refl eq_refl Ht).
Defined.

(** ** C6: starting and stopping the beacon *)




(** An instance that never had a handler holds at most one handle. *)
Lemma oneHandle_no_handler (v : v1.v1Protocol) : v1.handlers v = [] -> oneHandle v.
Proof. intros Hnil q h Hq _. rewrite Hnil in Hq. inversion Hq. Qed.






(** ** C8: public randomness *)

(** [Get] answers with an entry of the store that has the round asked for,
    or with an error when the store has no entry of that round. *)
Lemma Get_spec (db : list chain.Beacon) (round : N) :
  (exists b, chain.Get db round = (Some b, None) /\ b ∈ db /\ chain.Round b = round) \/
  (chain.Get db round = (None, Some chain.ErrNoBeaconSaved) /\
   forall b, b ∈ db -> chain.Round b <> round).
Proof.
  induction db as [|x db IH]; simpl.
  - right. split; [reflexivity|]. intros b Hb. inversion Hb.
  - destruct (N.eqb_spec (chain.Round x) round) as [Heq|Hne].
    + left. exists x. split; [reflexivity|]. split; [apply list_elem_of_here|exact Heq].
    + destruct IH as [(b & Hget & Hin & Hr)|(Hget & Hall)].
      * left. exists b. split; [exact Hget|]. split; [apply list_elem_of_further; exact Hin|exact Hr].
      * right. split; [exact Hget|]. intros b Hb.
        apply elem_of_cons in Hb as [->|Hb]; [exact Hne|exact (Hall b Hb)].
Qed.

(** C8: without a beacon handler [PublicRand] fails with the not-started
    error.  With one, round 0 is answered with the last entry of the store,
    and with the store's error when the store is empty.  For any other
    round [PublicRand] hands on what [Store.Get] answers for exactly that
    round: the entry the store returned, and no other, or the error that
    wraps the one of the store.  On the round-indexed store this is an
    entry of exactly the round asked for when the store has one, and the
    not-found error when it has none, so that a response to a round other
    than 0 always carries the round asked for. *)
Theorem PublicRand_exact_round_or_error :
  forall (sha256 : string -> string) (beaconString : chain.Beacon -> string)
         (v : v1.v1Protocol) (i : drand.PublicRandRequest),
    (v1.beacon v = None ->
     v1.PublicRand sha256 beaconString v i = Ret (v, Err v1.ErrNotStarted)) /\
    (forall p h, v1.beacon v = Some p -> v1.handlers v !! p = Some h ->
       (drand.reqRound i = 0%N ->
        (forall b, last (beacon.store h) = Some b ->
           v1.PublicRand sha256 beaconString v i
           = Ret (v1.logf v1.Info "public_rand" v, Ok (v1.beaconToProto sha256 b))) /\
        (beacon.store h = [] ->
           v1.PublicRand sha256 beaconString v i
           = Ret (v1.logf v1.Debug "public_rand" v,
                  Err (v1.cantRetrieve beaconString (Some chain.ErrNoBeaconSaved) None)))) /\
       (drand.reqRound i <> 0%N ->
        (forall b, chain.Get (beacon.store h) (drand.reqRound i) = (Some b, None) ->
           v1.PublicRand sha256 beaconString v i
           = Ret (v1.logf v1.Info "public_rand" v, Ok (v1.beaconToProto sha256 b))) /\
        (forall r err, chain.Get (beacon.store h) (drand.reqRound i) = (r, Some err) ->
           v1.PublicRand sha256 beaconString v i
           = Ret (v1.logf v1.Debug "public_rand" v,
                  Err (v1.cantRetrieve beaconString (Some err) r))) /\
        (chain.Get (beacon.store h) (drand.reqRound i) = (None, None) ->
           v1.PublicRand sha256 beaconString v i
           = Ret (v1.logf v1.Debug "public_rand" v,
                  Err (v1.cantRetrieve beaconString None None))) /\
        (forall b, b ∈ beacon.store h -> chain.Round b = drand.reqRound i ->
           exists b', b' ∈ beacon.store h /\ chain.Round b' = drand.reqRound i /\
             v1.PublicRand sha256 beaconString v i
             = Ret (v1.logf v1.Info "public_rand" v, Ok (v1.beaconToProto sha256 b'))) /\
        ((forall b, b ∈ beacon.store h -> chain.Round b <> drand.reqRound i) ->
           v1.PublicRand sha256 beaconString v i
           = Ret (v1.logf v1.Debug "public_rand" v,
                  Err (v1.cantRetrieve beaconString (Some chain.ErrNoBeaconSaved) None))) /\
        (forall v' resp, v1.PublicRand sha256 beaconString v i = Ret (v', Ok resp) ->
           drand.Round resp = drand.reqRound i))).
Proof.
  intros sha256 beaconString v i. split.
  - intros Hb. unfold v1.PublicRand. rewrite Hb. reflexivity.
  - intros p h Hb Hh. unfold v1.PublicRand. rewrite Hb, (handlerAt_Some v p h Hh).
    cbn [bindO fst snd]. split.
    + intros Hz. rewrite bool_decide_eq_true_2 by exact Hz. unfold chain.Last. split.
      * intros b Hlast. rewrite Hlast. reflexivity.
      * intros Hnil. rewrite Hnil. reflexivity.
    + intros Hnz. rewrite bool_decide_eq_false_2 by exact Hnz.
      split; [intros b Hget; rewrite Hget; reflexivity|].
      split; [intros r err Hget; rewrite Hget; destruct r; reflexivity|].
      split; [intros Hget; rewrite Hget; reflexivity|].
      destruct (Get_spec (beacon.store h) (drand.reqRound i))
        as [(b' & Hget & Hin & Hr)|(Hget & Hall)]; rewrite Hget.
      * split; [|split].
        -- intros b _ _. exists b'. split; [exact Hin|]. split; [exact Hr|reflexivity].
        -- intros Hnone. destruct (Hnone b' Hin Hr).
        -- intros v' resp Heq. injection Heq as _ <-. exact Hr.
      * split; [|split].
        -- intros b Hin Hr. destruct (Hall b Hin Hr).
        -- intros _. reflexivity.
        -- intros v' resp Heq. discriminate Heq.
Qed.

(** The end-to-end scenario: no beacon, then round 1 stored: round 0 and
    round 1 give round 1, round 2 is not found. *)
Lemma PublicRand_exact_round_or_error_witness :
  v1.PublicRand hash0 string0 idle {| drand.reqRound := 0 |}
  = Ret (idle, Err "drand: beacon generation not started yet") /\
  v1.PublicRand hash0 string0 (servingRounds [round 1]) {| drand.reqRound := 0 |}
  = Ret (v1.logf v1.Info "public_rand" (servingRounds [round 1]),
         Ok (v1.beaconToProto hash0 (round 1))) /\
  v1.PublicRand hash0 string0 (servingRounds [round 1]) {| drand.reqRound := 1 |}
  = Ret (v1.logf v1.Info "public_rand" (servingRounds [round 1]),
         Ok (v1.beaconToProto hash0 (round 1))) /\
  v1.PublicRand hash0 string0 (servingRounds [round 1]) {| drand.reqRound := 2 |}
  = Ret (v1.logf v1.Debug "public_rand" (servingRounds [round 1]),
         Err "can't retrieve beacon: beacon not found in database <nil>") /\
  v1.PublicRand hash0 string0 (servingRounds []) {| drand.reqRound := 0 |}
  = Ret (v1.logf v1.Debug "public_rand" (servingRounds []),
         Err "can't retrieve beacon: beacon not found in database <nil>").
Proof.
  split; [|split; [|split; [|split]]].
  - destruct (PublicRand_exact_round_or_error hash0 string0 idle {| drand.reqRound := 0 |})
      as (Hnone & _).
    exact (Hnone eq_refl).
  - destruct (PublicRand_exact_round_or_error hash0 string0 (servingRounds [round 1])
                {| drand.reqRound := 0 |}) as (_ & Hsome).
    destruct (Hsome 0%nat _ eq_refl eq_refl) as (Hzero & _).
    destruct (Hzero eq_refl) as (Hlast & _).
    exact (Hlast (round 1) eq_refl).
  - destruct (PublicRand_exact_round_or_error hash0 string0 (servingRounds [round 1])
                {| drand.reqRound := 1 |}) as (_ & Hsome).
    destruct (Hsome 0%nat _ eq_refl eq_refl) as (_ & Hround).
    destruct (Hround ltac:(discriminate)) as (Hfound & _).
    exact (Hfound (round 1) eq_refl).
  - destruct (PublicRand_exact_round_or_error hash0 string0 (servingRounds [round 1])
                {| drand.reqRound := 2 |}) as (_ & Hsome).
    destruct (Hsome 0%nat _ eq_refl eq_refl) as (_ & Hround).
    destruct (Hround ltac:(discriminate)) as (_ & _ & _ & _ & Habsent & _).
    apply Habsent. intros b Hb. apply list_elem_of_singleton in Hb as ->. discriminate.
  - destruct (PublicRand_exact_round_or_error hash0 string0 (servingRounds [])
                {| drand.reqRound := 0 |}) as (_ & Hsome).
    destruct (Hsome 0%nat _ eq_refl eq_refl) as (Hzero & _).
    destruct (Hzero eq_refl) as (_ & Hempty).
    exact (Hempty eq_refl).
Defined.

(** ** C5: the public stream *)

Open Scope list_scope.



Lemma store_produceAll (h : beacon.Handler) (bs : list chain.Beacon) :
  beacon.store (foldl beacon.produce h bs) = storeAfter (beacon.store h) bs.
Proof.
  revert h. induction bs as [|b bs IH]; intros h; [reflexivity|].
  simpl. rewrite IH. reflexivity.
Qed.



Lemma produceAll_lookup (p : nat) (bs : list chain.Beacon) (v : v1.v1Protocol)
    (h : beacon.Handler) :
  v1.handlers v !! p = Some h ->
  v1.handlers (v1.produceAll p bs v) !! p = Some (foldl beacon.produce h bs) /\
  v1.beacon (v1.produceAll p bs v) = v1.beacon v.
Proof.
  intros Hh. unfold v1.produceAll. rewrite Hh. split; [|reflexivity].
  apply store_handler_lookup with (h := h). exact Hh.
Qed.







(** A round that completes after the cursor is closed and before the
    callback is registered is in the store and is never sent: with the
    rounds 1 to 10 stored and round 5 requested, round 11 is skipped. *)
Lemma PublicRandStream_round_lost_before_registration :
  exists v' stream',
    v1.PublicRandStream hash0 (servingRounds rounds1to10) {| drand.reqRound := 5 |}
      publicStream0
      {| v1.beforeCursor := []; v1.beforeCallback := [round 11];
         v1.afterCallback := [round 12] |}
    = Ret (v', stream', v1.Streaming) /\
    sent stream' = v1.beaconToProto hash0 <$> rounds [5; 6; 7; 8; 9; 10; 12]%N /\
    (exists h', v1.handlers v' !! 0%nat = Some h' /\ round 11 ∈ beacon.store h').
Proof.
  eexists _, _. split; [reflexivity|]. split; [reflexivity|].
  eexists. split; [reflexivity|]. cbn.
  do 10 apply list_elem_of_further. apply list_elem_of_here.
Qed.

(** * Further properties *)

(** ** The factory registry and the loading of the server *)

(** After [registerProtocol v f], [getProtocolFactory] returns [f] for [v]
    and what it returned before for any other version; and it returns a
    factory exactly for the registered versions (the blacklist is empty). *)
Theorem getProtocolFactory_registerProtocol :
  forall (P : Type) (v v' : Version) (f : ProtocolFactory P)
         (protocols : gmap Version (ProtocolFactory P)),
    getProtocolFactory (registerProtocol v f protocols) v'
    = (if decide (v = v') then Ret f else getProtocolFactory protocols v') /\
    (forall f', getProtocolFactory protocols v' = Ret f' <-> protocols !! v' = Some f').
Proof.
  intros P v v' f protocols. unfold getProtocolFactory, registerProtocol, blacklist.
  rewrite bool_decide_eq_false_2 by (intros Hin; inversion Hin). split.
  - rewrite lookup_insert. case_decide; reflexivity.
  - intros f'. destruct (protocols !! v') as [f0|]; split; intros Heq;
      try discriminate Heq; injection Heq as ->; reflexivity.
Qed.

Lemma getProtocolFactory_registerProtocol_witness :
  getProtocolFactory (registerProtocol VERSION_2 factoryv2 registry1) VERSION_2 = Ret factoryv2 /\
  getProtocolFactory (registerProtocol VERSION_2 factoryv2 registry1) VERSION_1 = Ret factoryv1 /\
  getProtocolFactory registry1 VERSION_2 = Panic "no registered protocols for this version".
Proof.
  destruct (getProtocolFactory_registerProtocol v1.v1Protocol VERSION_2 VERSION_2 factoryv2
              registry1) as (Hsame & _).
  destruct (getProtocolFactory_registerProtocol v1.v1Protocol VERSION_2 VERSION_1 factoryv2
              registry1) as (Hother & _).
  split; [exact Hsame|]. split; [rewrite Hother; reflexivity|reflexivity].
Defined.

(** The loop never unregisters: an identifier registered before is still
    registered after, and the protocol in setup is not touched. *)
Lemma loadLoop_keeps_registered {P : Type} `{Protocol.Protocol P}
    (registry : gmap Version (ProtocolFactory P)) (protoConfigs : list ProtocolConfig) :
  forall (s : Server.Server P) (errs : list string) (v1Found : bool)
         (s' : Server.Server P) (errs' : list string) (v1Found' : bool),
    Server.loadLoop registry protoConfigs s errs v1Found = Ret (s', errs', v1Found') ->
    (forall id, is_Some (Server.protocols s !! id) -> is_Some (Server.protocols s' !! id)) /\
    Server.setup s' = Server.setup s.
Proof.
  induction protoConfigs as [|c rest IH]; intros s errs v1Found s' errs' v1Found'; simpl.
  - intros Heq. injection Heq as -> _ _. split; [intros id Hid; exact Hid|reflexivity].
  - destruct (getProtocolFactory registry (cfgVersion c)) as [factory|m]; simpl; [|discriminate].
    destruct (Load factory c) as [protocol|err]; [|apply IH].
    assert (Hins : forall id, is_Some (Server.protocols s !! id) ->
                     is_Some (<[Protocol.Key protocol := protocol]> (Server.protocols s) !! id)).
    { intros id Hid. rewrite lookup_insert. case_decide; [eexists; reflexivity|exact Hid]. }
    case_bool_decide; [destruct v1Found|]; intros Hrun; apply IH in Hrun as [Hkeep Hsetup];
      (split; [intros id Hid; apply Hkeep; simpl; apply Hins; exact Hid|exact Hsetup]).
Qed.

(** Every configuration whose [Load] succeeds has its protocol registered
    once the loop is over: under its key there is a protocol (the one
    loaded, or one loaded later under the same key). *)
Lemma loadLoop_registers_loaded {P : Type} `{Protocol.Protocol P}
    (registry : gmap Version (ProtocolFactory P)) (protoConfigs : list ProtocolConfig) :
  forall (s : Server.Server P) (errs : list string) (v1Found : bool)
         (s' : Server.Server P) (errs' : list string) (v1Found' : bool),
    Server.loadLoop registry protoConfigs s errs v1Found = Ret (s', errs', v1Found') ->
    forall c factory p,
      c ∈ protoConfigs -> getProtocolFactory registry (cfgVersion c) = Ret factory ->
      Load factory c = Ok p -> is_Some (Server.protocols s' !! Protocol.Key p).
Proof.
  induction protoConfigs as [|c0 rest IH]; intros s errs v1Found s' errs' v1Found' Hrun
    c factory p Hc Hf Hl.
  - inversion Hc.
  - apply elem_of_cons in Hc as [->|Hc].
    + simpl in Hrun. rewrite Hf in Hrun. simpl in Hrun. rewrite Hl in Hrun.
      assert (Hnow : is_Some (<[Protocol.Key p := p]> (Server.protocols s) !! Protocol.Key p)).
      { rewrite lookup_insert_eq. eexists; reflexivity. }
      case_bool_decide; [destruct v1Found|];
        apply loadLoop_keeps_registered in Hrun as [Hkeep _]; apply Hkeep; exact Hnow.
    + simpl in Hrun.
      destruct (getProtocolFactory registry (cfgVersion c0)) as [factory0|m];
        simpl in Hrun; [|discriminate].
      destruct (Load factory0 c0) as [protocol|err].
      * case_bool_decide; [destruct v1Found|]; eapply IH; eauto.
      * eapply IH; eauto.
Qed.

(** [LoadProtocols] registers every network that loads: after the call
    there is a protocol under the key of each protocol a [Load] returned,
    the identifiers registered before are still registered, and the
    protocol in setup is the same. *)
Theorem LoadProtocols_registers_all_loaded :
  forall (P : Type) (HP : Protocol.Protocol P) (registry : gmap Version (ProtocolFactory P))
         (protoConfigs : list ProtocolConfig) (s s' : Server.Server P) (e : option Error),
    Server.LoadProtocols registry protoConfigs s = Ret (s', e) ->
    (forall c factory p,
       c ∈ protoConfigs -> getProtocolFactory registry (cfgVersion c) = Ret factory ->
       Load factory c = Ok p -> is_Some (Server.protocols s' !! Protocol.Key p)) /\
    (forall id, is_Some (Server.protocols s !! id) -> is_Some (Server.protocols s' !! id)) /\
    Server.setup s' = Server.setup s.
Proof.
  intros P HP registry protoConfigs s s' e. unfold Server.LoadProtocols.
  destruct (Server.loadLoop registry protoConfigs s [] false)
    as [[[s1 errs1] f1]|m] eqn:Hloop; simpl; [|discriminate].
  intros Heq. injection Heq as <- _. split.
  - eapply loadLoop_registers_loaded. exact Hloop.
  - eapply loadLoop_keeps_registered. exact Hloop.
Qed.

Lemma LoadProtocols_registers_all_loaded_witness :
  Server.LoadProtocols registry1 [cfg "broken"; cfg "net-a"] Server.NewServer
  = Ret (serverA, None) /\
  is_Some (Server.protocols serverA !! Protocol.Key (freshV1 "net-a")).
Proof.
  assert (Hrun : Server.LoadProtocols registry1 [cfg "broken"; cfg "net-a"] Server.NewServer
                 = Ret (serverA, None)) by reflexivity.
  split; [exact Hrun|].
  destruct (LoadProtocols_registers_all_loaded v1.v1Protocol _ registry1
              [cfg "broken"; cfg "net-a"] Server.NewServer serverA None Hrun)
    as (Hall & _).
  apply (Hall (cfg "net-a") factoryv1 (freshV1 "net-a")); [|reflexivity|reflexivity].
  apply list_elem_of_further, list_elem_of_here.
Defined.

(** Once a V1 protocol has been found, the rest of the loop leaves the
    remembered V1 identifier alone. *)
Lemma loadLoop_found_keeps_v1ID {P : Type} `{Protocol.Protocol P}
    (registry : gmap Version (ProtocolFactory P)) (protoConfigs : list ProtocolConfig) :
  forall (s : Server.Server P) (errs : list string)
         (s' : Server.Server P) (errs' : list string) (v1Found' : bool),
    Server.loadLoop registry protoConfigs s errs true = Ret (s', errs', v1Found') ->
    Server.v1ID s' = Server.v1ID s.
Proof.
  induction protoConfigs as [|c rest IH]; intros s errs s' errs' v1Found'; simpl.
  - intros Heq. injection Heq as -> _ _. reflexivity.
  - destruct (getProtocolFactory registry (cfgVersion c)) as [factory|m]; simpl; [|discriminate].
    destruct (Load factory c) as [protocol|err]; [|apply IH].
    case_bool_decide; intros Hrun; apply IH in Hrun; exact Hrun.
Qed.

Lemma loadLoop_first_V1 {P : Type} `{Protocol.Protocol P}
    (registry : gmap Version (ProtocolFactory P)) (factory : ProtocolFactory P)
    (c : ProtocolConfig) (post : list ProtocolConfig) (p : P) (pre : list ProtocolConfig) :
  getProtocolFactory registry VERSION_1 = Ret factory ->
  cfgVersion c = VERSION_1 -> Load factory c = Ok p ->
  (forall c0, c0 ∈ pre -> cfgVersion c0 = VERSION_1 -> exists err, Load factory c0 = Err err) ->
  forall (s : Server.Server P) (errs : list string)
         (s' : Server.Server P) (errs' : list string) (v1Found' : bool),
    Server.loadLoop registry (pre ++ c :: post) s errs false = Ret (s', errs', v1Found') ->
    Server.v1ID s' = Protocol.Key p.
Proof.
  intros Hf Hc Hl. induction pre as [|c0 pre IH]; intros Hpre s errs s' errs' v1Found'.
  - simpl. rewrite Hc, Hf. simpl. rewrite Hl.
    change (bool_decide (VERSION_1 = VERSION_1)) with true. cbv iota.
    intros Hrun. apply loadLoop_found_keeps_v1ID in Hrun. exact Hrun.
  - assert (Hpre' : forall c1, c1 ∈ pre -> cfgVersion c1 = VERSION_1 ->
                      exists err, Load factory c1 = Err err).
    { intros c1 Hc1. apply Hpre. apply list_elem_of_further. exact Hc1. }
    simpl. destruct (decide (cfgVersion c0 = VERSION_1)) as [Hv|Hv].
    + destruct (Hpre c0 (list_elem_of_here _ _) Hv) as (err & Herr).
      rewrite Hv, Hf. simpl. rewrite Herr. apply (IH Hpre').
    + destruct (getProtocolFactory registry (cfgVersion c0)) as [factory0|m];
        simpl; [|discriminate].
      destruct (Load factory0 c0) as [protocol|err]; [|apply (IH Hpre')].
      rewrite (bool_decide_eq_false_2 _ Hv). apply (IH Hpre').
Qed.

(** The V1 identifier the server remembers after [LoadProtocols] is the key
    of the first V1 protocol that loaded; V1 protocols that load later do
    not change it. *)
Theorem LoadProtocols_first_V1_is_alias :
  forall (P : Type) (HP : Protocol.Protocol P) (registry : gmap Version (ProtocolFactory P))
         (factory : ProtocolFactory P) (pre : list ProtocolConfig) (c : ProtocolConfig)
         (post : list ProtocolConfig) (p : P) (s s' : Server.Server P) (e : option Error),
    getProtocolFactory registry VERSION_1 = Ret factory ->
    cfgVersion c = VERSION_1 -> Load factory c = Ok p ->
    (forall c0, c0 ∈ pre -> cfgVersion c0 = VERSION_1 -> exists err, Load factory c0 = Err err) ->
    Server.LoadProtocols registry (pre ++ c :: post) s = Ret (s', e) ->
    Server.v1ID s' = Protocol.Key p.
Proof.
  intros P HP registry factory pre c post p s s' e Hf Hc Hl Hpre.
  unfold Server.LoadProtocols.
  destruct (Server.loadLoop registry (pre ++ c :: post) s [] false)
    as [[[s1 errs1] f1]|m] eqn:Hloop; simpl; [|discriminate].
  intros Heq. injection Heq as <- _.
  eapply loadLoop_first_V1; eauto.
Qed.

(** Three V1 networks on disk, the first of which does not load: the
    identifier remembered is the one of the second, not of the third. *)
Lemma LoadProtocols_first_V1_is_alias_witness :
  Server.LoadProtocols registry1 ([cfg "broken"] ++ cfg "net-a" :: [cfg "net-c"])
    Server.NewServer
  = Ret (serverAC, None) /\
  Server.v1ID serverAC = Protocol.Key (freshV1 "net-a").
Proof.
  assert (Hrun : Server.LoadProtocols registry1 ([cfg "broken"] ++ cfg "net-a" :: [cfg "net-c"])
                   Server.NewServer = Ret (serverAC, None)) by reflexivity.
  split; [exact Hrun|].
  apply (LoadProtocols_first_V1_is_alias v1.v1Protocol _ registry1 factoryv1
           [cfg "broken"] (cfg "net-a") [cfg "net-c"] (freshV1 "net-a") Server.NewServer
           serverAC None eq_refl eq_refl eq_refl); [|exact Hrun].
  intros c0 Hc0 _. apply list_elem_of_singleton in Hc0 as ->. eexists. reflexivity.
Defined.

(** ** Dispatch *)

(** With a V1 identifier registered, a packet without group hash is
    treated exactly as the same packet carrying that identifier. *)
Theorem PartialBeacon_empty_hash_is_alias :
  forall (P : Type) (HP : Protocol.Protocol P) (s : Server.Server P)
         (i : drand.PartialBeaconPacket),
    drand.groupHash i = "" -> Server.v1ID s <> "" ->
    Server.PartialBeacon s i = Server.PartialBeacon s (Server.withHash i (Server.v1ID s)).
Proof.
  intros P HP s i Hi Hs. unfold Server.PartialBeacon.
  rewrite bool_decide_eq_true_2 by (apply length_zero_empty; exact Hi).
  rewrite bool_decide_eq_false_2 by (rewrite length_zero_empty; exact Hs).
  cbn [Server.withHash drand.groupHash].
  rewrite bool_decide_eq_false_2 by (rewrite length_zero_empty; exact Hs).
  reflexivity.
Qed.

Lemma PartialBeacon_empty_hash_is_alias_witness :
  Server.PartialBeacon serverA (packet "") = Server.PartialBeacon serverA (packet "net-a").
Proof.
  exact (PartialBeacon_empty_hash_is_alias v1.v1Protocol _ serverA (packet "")
           eq_refl ltac:(discriminate)).
Defined.

(** A dispatched call changes at most the protocol its packet names: the
    V1 identifier, the protocol in setup, the set of registered identifiers
    and every other protocol are as before, and of the packet only the
    group hash can have changed. *)
Theorem PartialBeacon_touches_one_protocol :
  forall (P : Type) (HP : Protocol.Protocol P) (s s' : Server.Server P)
         (i i' : drand.PartialBeaconPacket) (r : result drand.Empty),
    Server.PartialBeacon s i = Ret (s', i', r) ->
    Server.v1ID s' = Server.v1ID s /\ Server.setup s' = Server.setup s /\
    (forall id, id <> drand.groupHash i' ->
                Server.protocols s' !! id = Server.protocols s !! id) /\
    (forall id, is_Some (Server.protocols s' !! id) <-> is_Some (Server.protocols s !! id)) /\
    drand.pbRound i' = drand.pbRound i /\ drand.partialSig i' = drand.partialSig i.
Proof.
  intros P HP s s' i i' r.
  assert (Hroute : forall j, Server.route s j = Ret (s', i', r) ->
    Server.v1ID s' = Server.v1ID s /\ Server.setup s' = Server.setup s /\
    (forall id, id <> drand.groupHash i' ->
                Server.protocols s' !! id = Server.protocols s !! id) /\
    (forall id, is_Some (Server.protocols s' !! id) <-> is_Some (Server.protocols s !! id)) /\
    i' = j).
  { intros j. unfold Server.route.
    destruct (Server.protocols s !! drand.groupHash j) as [p|] eqn:Hp.
    - destruct (Protocol.PartialBeacon p j) as [[p' r']|m]; simpl; [|discriminate].
      intros Heq. injection Heq as <- <- <-. simpl.
      split; [reflexivity|]. split; [reflexivity|]. split; [|split; [|reflexivity]].
      + intros id Hid. apply lookup_insert_ne. intros Heq. apply Hid. symmetry. exact Heq.
      + intros id. rewrite lookup_insert. case_decide as Hid; [|reflexivity].
        subst id. rewrite Hp. split; intros _; eexists; reflexivity.
    - intros Heq. injection Heq as <- <- <-.
      split; [reflexivity|]. split; [reflexivity|].
      split; [reflexivity|]. split; reflexivity. }
  unfold Server.PartialBeacon. case_bool_decide.
  - case_bool_decide.
    + intros Heq. injection Heq as <- <- <-.
      repeat (split; [reflexivity|]). reflexivity.
    + intros Hrun. apply Hroute in Hrun as (Hv & Hs & Ho & Hd & ->).
      repeat (split; [assumption|]). split; reflexivity.
  - intros Hrun. apply Hroute in Hrun as (Hv & Hs & Ho & Hd & ->).
    repeat (split; [assumption|]). split; reflexivity.
Qed.

Lemma PartialBeacon_touches_one_protocol_witness :
  Server.PartialBeacon serverA (packet "")
  = Ret (serverA, packet "net-a", Err "drand: beacon not setup yet") /\
  Server.v1ID serverA = Server.v1ID serverA /\
  drand.pbRound (packet "net-a") = drand.pbRound (packet "").
Proof.
  assert (Hrun : Server.PartialBeacon serverA (packet "")
                 = Ret (serverA, packet "net-a", Err "drand: beacon not setup yet"))
    by reflexivity.
  split; [exact Hrun|].
  destruct (PartialBeacon_touches_one_protocol v1.v1Protocol _ serverA serverA
              (packet "") (packet "net-a") _ Hrun) as (Hv & _ & _ & _ & Hround & _).
  split; [exact Hv|exact Hround].
Defined.

(** On a server filled by [LoadProtocols], a packet without group hash is
    never answered with the unknown-network error of the server: either no
    V1 protocol was loaded and the identifier is missing, or the call goes
    to the protocol registered under the V1 identifier. *)
Theorem loaded_server_routes_empty_hash :
  forall (P : Type) (HP : Protocol.Protocol P) (registry : gmap Version (ProtocolFactory P))
         (protoConfigs : list ProtocolConfig) (s : Server.Server P) (e : option Error)
         (i : drand.PartialBeaconPacket),
    Server.LoadProtocols registry protoConfigs Server.NewServer = Ret (s, e) ->
    drand.groupHash i = "" ->
    Server.PartialBeacon s i = Ret (s, i, Err Server.ErrNoID) \/
    exists p, Server.protocols s !! Server.v1ID s = Some p /\
      Server.PartialBeacon s i
      = forwardedTo s (Server.v1ID s) p (Server.withHash i (Server.v1ID s)).
Proof.
  intros P HP registry protoConfigs s e i Hload Hi.
  apply LoadProtocols_aliasRegistered in Hload.
  unfold Server.PartialBeacon, Server.route, forwardedTo.
  rewrite bool_decide_eq_true_2 by (apply length_zero_empty; exact Hi).
  destruct Hload as [Hnone|[p Hp]].
  - left. rewrite bool_decide_eq_true_2 by (apply length_zero_empty; exact Hnone).
    reflexivity.
  - case_bool_decide; [left; reflexivity|right].
    exists p. split; [exact Hp|]. cbn [Server.withHash drand.groupHash].
    rewrite Hp. reflexivity.
Qed.

Lemma loaded_server_routes_empty_hash_witness :
  Server.LoadProtocols registry1 [cfg "broken"; cfg "net-a"] Server.NewServer
  = Ret (serverA, None) /\
  (Server.PartialBeacon serverA (packet "") = Ret (serverA, packet "", Err Server.ErrNoID) \/
   exists p, Server.protocols serverA !! Server.v1ID serverA = Some p /\
     Server.PartialBeacon serverA (packet "")
     = forwardedTo serverA (Server.v1ID serverA) p
         (Server.withHash (packet "") (Server.v1ID serverA))).
Proof.
  assert (Hrun : Server.LoadProtocols registry1 [cfg "broken"; cfg "net-a"] Server.NewServer
                 = Ret (serverA, None)) by reflexivity.
  split; [exact Hrun|].
  exact (loaded_server_routes_empty_hash v1.v1Protocol _ registry1
           [cfg "broken"; cfg "net-a"] serverA None (packet "") Hrun eq_refl).
Defined.

(** End to end: a packet without group hash sent to a server whose V1
    protocol has a beacon handler reaches that handler once, with the group
    hash filled in, and the answer of the handler is the answer of the
    server. *)
Theorem PartialBeacon_reaches_handler_with_filled_hash :
  forall (s : Server.Server v1.v1Protocol) (i : drand.PartialBeaconPacket)
         (v : v1.v1Protocol) (p : nat) (h : beacon.Handler),
    drand.groupHash i = "" -> Server.v1ID s <> "" ->
    Server.protocols s !! Server.v1ID s = Some v ->
    v1.beacon v = Some p -> v1.handlers v !! p = Some h ->
    exists s' v' h',
      Server.PartialBeacon s i
      = Ret (s', Server.withHash i (Server.v1ID s),
             match beacon.rejects h (beacon.CProcessPartialBeacon
                                       (Server.withHash i (Server.v1ID s))) with
             | Some err => Err err
             | None => Ok drand.mkEmpty
             end) /\
      Server.protocols s' !! Server.v1ID s = Some v' /\
      v1.handlers v' !! p = Some h' /\
      beacon.calls h'
      = beacon.calls h ++ [beacon.CProcessPartialBeacon (Server.withHash i (Server.v1ID s))].
Proof.
  intros s i v p h Hi Hs Hv Hb Hh.
  unfold Server.PartialBeacon, Server.route.
  rewrite bool_decide_eq_true_2 by (apply length_zero_empty; exact Hi).
  rewrite bool_decide_eq_false_2 by (rewrite length_zero_empty; exact Hs).
  cbn [Server.withHash drand.groupHash]. rewrite Hv.
  cbn [Protocol.PartialBeacon v1.v1Protocol_Protocol]. unfold v1.PartialBeacon.
  rewrite Hb, (handlerAt_Some v p h Hh). cbn [bindO fst snd].
  unfold beacon.ProcessPartialBeacon, beacon.ask. cbn [bindO fst snd].
  eexists _, _, _. split; [reflexivity|]. cbn.
  split; [apply lookup_insert_eq|].
  split; [apply list_lookup_insert_eq; eapply lookup_lt_Some; exact Hh|reflexivity].
Qed.

Lemma PartialBeacon_reaches_handler_with_filled_hash_witness :
  exists s' v' h',
    Server.PartialBeacon
      {| Server.protocols := {[ "net-a" := servingRounds [] ]};
         Server.v1ID := "net-a"; Server.setup := None |} (packet "")
    = Ret (s', packet "net-a", Ok drand.mkEmpty) /\
    Server.protocols s' !! "net-a" = Some v' /\
    v1.handlers v' !! 0%nat = Some h' /\
    beacon.calls h' = [beacon.CStart; beacon.CProcessPartialBeacon (packet "net-a")].
Proof.
  exact (PartialBeacon_reaches_handler_with_filled_hash
           {| Server.protocols := {[ "net-a" := servingRounds [] ]};
              Server.v1ID := "net-a"; Server.setup := None |} (packet "")
           (servingRounds []) 0%nat
           (handlerOf group02 (Some share0) [] true [beacon.CStart])
           eq_refl ltac:(discriminate) eq_refl eq_refl eq_refl).
Defined.

(** ** The DKG session *)

(** A [WaitDKG] without session, or whose DKG ended in error, returns an
    error and leaves the store, the share, the group, the beacon and the
    session of the instance as they were: after a failed DKG the session is
    still there. *)
Theorem WaitDKG_failed_dkg_keeps_state :
  forall (v : v1.v1Protocol) (res : dkg.OptionResult),
    v1.dkgInfo_ v = None \/ is_Some (dkg.error_ res) ->
    exists v' e,
      v1.WaitDKG v res = Ret (v', Err e) /\
      v1.store v' = v1.store v /\ v1.share v' = v1.share v /\ v1.group v' = v1.group v /\
      v1.dkgInfo_ v' = v1.dkgInfo_ v /\ v1.beacon v' = v1.beacon v.
Proof.
  intros v res Hfail. unfold v1.WaitDKG.
  destruct (v1.dkgInfo_ v) as [info|] eqn:Hinfo.
  - destruct Hfail as [Hnone|[e He]]; [discriminate Hnone|]. rewrite He.
    eexists _, _. split; [reflexivity|]. cbn. rewrite Hinfo. repeat split; reflexivity.
  - eexists _, _. split; [reflexivity|]. rewrite Hinfo. repeat split; reflexivity.
Qed.

Lemma WaitDKG_failed_dkg_keeps_state_witness :
  exists v' e,
    v1.WaitDKG (inDKG accepts) resultFailed = Ret (v', Err e) /\
    v1.store v' = v1.store (inDKG accepts) /\ v1.share v' = v1.share (inDKG accepts) /\
    v1.group v' = v1.group (inDKG accepts) /\
    v1.dkgInfo_ v' = v1.dkgInfo_ (inDKG accepts) /\ v1.beacon v' = v1.beacon (inDKG accepts).
Proof.
  apply (WaitDKG_failed_dkg_keeps_state (inDKG accepts) resultFailed).
  right. eexists. reflexivity.
Defined.

(** A session is consumed once: after a [WaitDKG] that returned a group,
    any further [WaitDKG] fails for want of a session and changes nothing. *)
Theorem WaitDKG_session_consumed_once :
  forall (v v' : v1.v1Protocol) (res res' : dkg.OptionResult) (g : key.Group),
    v1.WaitDKG v res = Ret (v', Ok g) ->
    v1.WaitDKG v' res' = Ret (v', Err "no dkg info set").
Proof.
  intros v v' res res' g Hrun.
  destruct (WaitDKG_inv v v' res g Hrun) as (_ & _ & _ & _ & _ & _ & _ & _ & Hnone & _).
  unfold v1.WaitDKG. rewrite Hnone. reflexivity.
Qed.

Lemma WaitDKG_session_consumed_once_witness :
  v1.WaitDKG (inDKG accepts) resultQ02 = Ret (doneDKG, Ok group02) /\
  v1.WaitDKG doneDKG resultQ02 = Ret (doneDKG, Err "no dkg info set").
Proof.
  split; [reflexivity|].
  exact (WaitDKG_session_consumed_once (inDKG accepts) doneDKG resultQ02 resultQ02 group02
           eq_refl).
Defined.

(** What is in memory after a save failed.  When the share cannot be saved,
    the instance holds the new share all the same, with its old group and
    its session.  When the group cannot be saved, the instance holds the new
    share and the new group, neither of which the caller was given, and the
    session is still there. *)
Theorem WaitDKG_failed_save_keeps_new_material :
  forall (v : v1.v1Protocol) (res : dkg.OptionResult) (info : v1.dkgInfo) (r : dkg.Result)
         (e : Error),
    v1.dkgInfo_ v = Some info -> dkg.error_ res = None -> dkg.result_ res = Some r ->
    (key.refuses (v1.store v) (key.WShare (dkg.Key r)) = Some e ->
     exists v',
       v1.WaitDKG v res = Ret (v', Err e) /\ v1.share v' = Some (dkg.Key r) /\
       v1.group v' = v1.group v /\ v1.dkgInfo_ v' = Some info /\
       v1.store v' = v1.store v) /\
    (key.refuses (v1.store v) (key.WShare (dkg.Key r)) = None ->
     key.refuses (v1.store v) (key.WGroup (qualifiedGroup info r)) = Some e ->
     exists v',
       v1.WaitDKG v res = Ret (v', Err e) /\ v1.share v' = Some (dkg.Key r) /\
       v1.group v' = Some (qualifiedGroup info r) /\ is_Some (v1.dkgInfo_ v') /\
       key.written (v1.store v') = key.written (v1.store v) ++ [key.WShare (dkg.Key r)]).
Proof.
  intros v res info r e Hinfo Herr Hres. split.
  - intros Hshare. unfold v1.WaitDKG. rewrite Hinfo, Herr, Hres.
    cbn [deref bindO]. unfold key.SaveShare, key.save. cbn. rewrite Hshare.
    eexists. split; [reflexivity|]. cbn. rewrite Hinfo.
    repeat split; reflexivity.
  - intros Hshare Hgroup. unfold qualifiedGroup in *.
    unfold v1.WaitDKG. rewrite Hinfo, Herr, Hres.
    cbn [deref bindO]. unfold key.SaveShare, key.SaveGroup, key.save. cbn. rewrite Hshare.
    cbn. rewrite Hgroup.
    eexists. split; [reflexivity|]. cbn.
    split; [reflexivity|]. split; [reflexivity|]. split; [eexists; reflexivity|reflexivity].
Qed.

Lemma WaitDKG_failed_save_keeps_new_material_witness :
  exists v',
    v1.WaitDKG (inDKG refusesGroup) resultQ02 = Ret (v', Err "disk full") /\
    v1.share v' = Some share0 /\ v1.group v' = Some group02 /\ is_Some (v1.dkgInfo_ v') /\
    key.written (v1.store v') = [key.WShare share0].
Proof.
  destruct (WaitDKG_failed_save_keeps_new_material (inDKG refusesGroup) resultQ02
              {| v1.target := targetGroup3; v1.started := true |}
              {| dkg.QUAL := [ {| dkg.Index := 0; dkg.Public := "p0" |};
                               {| dkg.Index := 2; dkg.Public := "p2" |} ];
                 dkg.Key := share0 |}
              "disk full" eq_refl eq_refl eq_refl) as (_ & Hgroup).
  exact (Hgroup eq_refl eq_refl).
Defined.

(** The phaser of a session is started by its first packet and by no other:
    a call without session does nothing; the first call on a session that
    is not started starts the phaser, then gives the packet to the board;
    and whatever [BroadcastDKG] was called before, and whatever the board
    answered, the next call does not start the phaser. *)
Theorem BroadcastDKG_starts_phaser_once :
  forall (board : DKGPacket -> option Error) (v v' : v1.v1Protocol) (i : DKGPacket)
         (effects : list DkgEffect) (r : result drand.Empty),
    BroadcastDKG board v i = (v', effects, r) ->
    (v1.dkgInfo_ v = None -> v' = v /\ effects = [] /\ r = Err "drand: no dkg running") /\
    (forall info, v1.dkgInfo_ v = Some info -> v1.started info = false ->
       effects = [PhaserStart; BoardBroadcast i]) /\
    (forall board' i', PhaserStart ∉ (BroadcastDKG board' v' i').1.2).
Proof.
  intros board v v' i effects r. unfold BroadcastDKG at 1.
  destruct (v1.dkgInfo_ v) as [info|] eqn:Hinfo.
  - assert (Hnext : forall (w : v1.v1Protocol) info',
              v1.dkgInfo_ w = Some info' -> v1.started info' = true ->
              forall board' i', PhaserStart ∉ (BroadcastDKG board' w i').1.2).
    { intros w info' Hw Hst board' i'. unfold BroadcastDKG. rewrite Hw, Hst.
      destruct (board' i'); cbn; intros Hin;
        apply list_elem_of_singleton in Hin; discriminate Hin. }
    destruct (v1.started info) eqn:Hst.
    + destruct (board i); intros Heq; injection Heq as <- <- <-;
        (split; [discriminate|]); (split; [intros info0 Hi0 Hs0; congruence|]);
        apply (Hnext v info Hinfo Hst).
    + destruct (board i); intros Heq; injection Heq as <- <- <-;
        (split; [discriminate|]); (split; [intros; reflexivity|]);
        eapply Hnext; reflexivity.
  - intros Heq. injection Heq as <- <- <-.
    split; [intros _; repeat split; reflexivity|]. split; [discriminate|].
    intros board' i'. unfold BroadcastDKG. rewrite Hinfo. cbn. intros Hin. inversion Hin.
Qed.

Lemma BroadcastDKG_starts_phaser_once_witness :
  exists v' r,
    BroadcastDKG boardOk
      (v1.set_dkgInfo (Some {| v1.target := targetGroup3; v1.started := false |})
         (freshV1 "net-a")) dkgPacket0
    = (v', [PhaserStart; BoardBroadcast dkgPacket0], r) /\
    PhaserStart ∉ (BroadcastDKG boardOk v' dkgPacket0).1.2.
Proof.
  eexists _, _. split; [reflexivity|].
  match goal with |- PhaserStart ∉ (BroadcastDKG _ ?w _).1.2 =>
    destruct (BroadcastDKG_starts_phaser_once boardOk
                (v1.set_dkgInfo (Some {| v1.target := targetGroup3; v1.started := false |})
                   (freshV1 "net-a"))
                w dkgPacket0 [PhaserStart; BoardBroadcast dkgPacket0] (Ok drand.mkEmpty)
                eq_refl) as (_ & _ & Honce) end.
  exact (Honce boardOk dkgPacket0).
Defined.

(** ** The chain information *)

(** A DKG that ended well makes the chain information available: after a
    [WaitDKG] that returned a group, [ChainInfo] describes that group; an
    instance without group has none to give. *)
Theorem ChainInfo_after_WaitDKG :
  forall (Packet : Type) (toProto : key.Group -> Packet) (v v' : v1.v1Protocol)
         (res : dkg.OptionResult) (g : key.Group),
    v1.WaitDKG v res = Ret (v', Ok g) ->
    ChainInfo toProto v' = Ok (toProto g) /\
    (v1.group v = None -> ChainInfo toProto v = Err "drand: no dkg group setup yet").
Proof.
  intros Packet toProto v v' res g Hrun.
  destruct (WaitDKG_inv v v' res g Hrun) as (_ & _ & _ & _ & _ & _ & _ & Hgroup & _).
  unfold ChainInfo. rewrite Hgroup. split; [reflexivity|].
  intros Hnone. rewrite Hnone. reflexivity.
Qed.

Lemma ChainInfo_after_WaitDKG_witness :
  v1.WaitDKG (inDKG accepts) resultQ02 = Ret (doneDKG, Ok group02) /\
  ChainInfo key.Len doneDKG = Ok 2%nat /\
  ChainInfo key.Len (inDKG accepts) = Err "drand: no dkg group setup yet".
Proof.
  split; [reflexivity|].
  destruct (ChainInfo_after_WaitDKG nat key.Len (inDKG accepts) doneDKG resultQ02 group02
              eq_refl) as (Hafter & Hbefore).
  split; [exact Hafter|exact (Hbefore eq_refl)].
Defined.

(** ** The life cycle of the beacon *)

(** A node that is in the old and in the new group keeps its handler: the
    only thing [transition] asks of it is to move to the share and group of
    the instance; no handler is created, nothing is logged, and group, share
    and store of the instance are as before. *)
Theorem transition_staying_hands_over_new_group :
  forall (nb : v1.v1Protocol -> v1.v1Protocol * result nat) (oldGroup : option key.Group)
         (v : v1.v1Protocol) (g : key.Group) (p : nat) (h : beacon.Handler),
    v1.group v = Some g -> v1.beacon v = Some p -> v1.handlers v !! p = Some h ->
    exists v' h',
      v1.transition nb oldGroup true true v = Ret v' /\
      v1.beacon v' = Some p /\ v1.handlers v' !! p = Some h' /\
      beacon.calls h'
      = beacon.calls h ++ [beacon.CTransitionNewGroup (v1.share v) (Some g)] /\
      beacon.generating h' = beacon.generating h /\
      length (v1.handlers v') = length (v1.handlers v) /\
      v1.log v' = v1.log v /\ v1.group v' = v1.group v /\ v1.share v' = v1.share v /\
      v1.store v' = v1.store v.
Proof.
  intros nb oldGroup v g p h Hg Hb Hh. unfold v1.transition.
  rewrite Hg, Hb. cbn [deref bindO negb]. rewrite (handlerAt_Some v p h Hh).
  cbn [bindO fst snd]. eexists _, _. split; [reflexivity|]. cbn.
  split; [exact Hb|].
  split; [apply list_lookup_insert_eq; eapply lookup_lt_Some; exact Hh|].
  split; [reflexivity|]. split; [reflexivity|]. split; [apply length_insert|].
  repeat split; first [reflexivity | exact Hg].
Qed.

Lemma transition_staying_hands_over_new_group_witness :
  exists v' h',
    v1.transition v1.newBeacon (Some targetGroup3) true true leaving = Ret v' /\
    v1.beacon v' = Some 0%nat /\ v1.handlers v' !! 0%nat = Some h' /\
    beacon.calls h' = [beacon.CStart; beacon.CTransitionNewGroup (Some share0) (Some group02)] /\
    beacon.generating h' = true /\ length (v1.handlers v') = 1%nat.
Proof.
  destruct (transition_staying_hands_over_new_group v1.newBeacon (Some targetGroup3) leaving
              group02 0%nat (handlerOf targetGroup3 (Some share0) [] true [beacon.CStart])
              eq_refl eq_refl eq_refl)
    as (v' & h' & Hrun & Hb & Hh & Hcalls & Hgen & Hlen & _).
  exists v', h'. repeat (split; [assumption|]). exact Hlen.
Defined.

(** A node that joins with the new group gets its handler from
    [newBeacon] and asks it one thing, to sync from the old group; an
    error of that sync is logged and [transition] returns all the same.
    When [newBeacon] fails the process ends. *)
Theorem transition_joining_syncs_from_old_group :
  forall (nb : v1.v1Protocol -> v1.v1Protocol * result nat) (oldGroup : option key.Group)
         (v : v1.v1Protocol) (g : key.Group),
    v1.group v = Some g ->
    (forall vb err, nb v = (vb, Err err) ->
       v1.transition nb oldGroup false true v = Panic "transition") /\
    (forall vb b h, nb v = (vb, Ok b) -> v1.handlers vb !! b = Some h ->
       exists v' h',
         v1.transition nb oldGroup false true v = Ret v' /\
         v1.handlers v' !! b = Some h' /\
         beacon.calls h' = beacon.calls h ++ [beacon.CTransition oldGroup] /\
         v1.beacon v' = v1.beacon vb /\
         v1.log v'
         = v1.log vb ++
           match beacon.rejects h (beacon.CTransition oldGroup) with
           | Some _ => [(v1.Error_, "sync_before"); (v1.Info, "transition_new")]
           | None => [(v1.Info, "transition_new")]
           end).
Proof.
  intros nb oldGroup v g Hg. unfold v1.transition. rewrite Hg. cbn [deref bindO negb].
  split.
  - intros vb err Hnb. rewrite Hnb. reflexivity.
  - intros vb b h Hnb Hh. rewrite Hnb, (handlerAt_Some vb b h Hh). cbn [bindO fst snd].
    unfold beacon.Transition, beacon.ask.
    destruct (beacon.rejects h (beacon.CTransition oldGroup)) as [e|];
      (eexists _, _; split; [reflexivity|]; cbn;
       split; [apply list_lookup_insert_eq; eapply lookup_lt_Some; exact Hh|];
       split; [reflexivity|]; split; [reflexivity|]).
    + rewrite <- app_assoc. reflexivity.
    + reflexivity.
Qed.

Lemma transition_joining_syncs_from_old_group_witness :
  exists v' h',
    v1.transition v1.newBeacon (Some targetGroup3) false true idle = Ret v' /\
    v1.handlers v' !! 0%nat = Some h' /\
    beacon.calls h' = [beacon.CTransition (Some targetGroup3)] /\
    v1.beacon v' = Some 0%nat /\ v1.log v' = [(v1.Info, "transition_new")].
Proof.
  destruct (transition_joining_syncs_from_old_group v1.newBeacon (Some targetGroup3) idle
              group02 eq_refl) as (_ & Hjoin).
  exact (Hjoin (serving group02 [handlerOf group02 (Some share0) [] false []] (Some 0%nat) [])
           0%nat (handlerOf group02 (Some share0) [] false []) eq_refl eq_refl).
Defined.

(** Stopping after starting stops the handler that was started: when
    [newBeacon] hands out the handler the instance points to,
    [StartBeacon] followed by [StopBeacon] leaves the instance without
    beacon, and that handler was asked to run, then to stop, and nothing
    else. *)
Theorem StartBeacon_then_StopBeacon :
  forall (nb : v1.v1Protocol -> v1.v1Protocol * result nat) (catchup : bool)
         (v vb : v1.v1Protocol) (b : nat) (h : beacon.Handler),
    nb v = (vb, Ok b) -> v1.beacon vb = Some b -> v1.handlers vb !! b = Some h ->
    exists v1 v2 h2,
      v1.StartBeacon nb catchup v = Ret v1 /\ v1.StopBeacon v1 = Ret v2 /\
      v1.beacon v2 = None /\ v1.handlers v2 !! b = Some h2 /\
      beacon.generating h2 = false /\
      beacon.calls h2
      = beacon.calls h ++ [if catchup then beacon.CCatchup else beacon.CStart; beacon.CStop] /\
      length (v1.handlers v2) = length (v1.handlers vb).
Proof.
  intros nb catchup v vb b h Hnb Hb Hh. unfold v1.StartBeacon. rewrite Hnb.
  assert (Hh' : v1.handlers (v1.logf v1.Info "beacon_start" vb) !! b = Some h) by exact Hh.
  rewrite (handlerAt_Some _ b h Hh'). cbn [bindO fst snd].
  assert (Hstop : forall w hw,
            v1.beacon w = Some b -> v1.handlers w !! b = Some hw ->
            exists v2 h2, v1.StopBeacon w = Ret v2 /\ v1.beacon v2 = None /\
              v1.handlers v2 !! b = Some h2 /\ beacon.generating h2 = false /\
              beacon.calls h2 = beacon.calls hw ++ [beacon.CStop] /\
              length (v1.handlers v2) = length (v1.handlers w)).
  { intros w hw Hw Hhw. unfold v1.StopBeacon. rewrite Hw, (handlerAt_Some w b hw Hhw).
    cbn [bindO fst snd]. eexists _, _. split; [reflexivity|]. cbn.
    split; [reflexivity|].
    split; [apply list_lookup_insert_eq; eapply lookup_lt_Some; exact Hhw|].
    split; [reflexivity|]. split; [reflexivity|apply length_insert]. }
  assert (Hlt : (b < length (v1.handlers vb))%nat) by (eapply lookup_lt_Some; exact Hh).
  destruct catchup.
  - destruct (Hstop (v1.store_handler b (beacon.Catchup h) (v1.logf v1.Info "beacon_start" vb))
                (beacon.Catchup h) Hb (store_handler_lookup _ b h _ Hh'))
      as (v2 & h2 & Hrun & Hnone & Hh2 & Hgen & Hcalls & Hlen).
    eexists _, v2, h2. split; [reflexivity|]. split; [exact Hrun|].
    repeat (split; [assumption|]). split.
    + rewrite Hcalls. cbn. rewrite <- app_assoc. reflexivity.
    + rewrite Hlen. cbn. apply length_insert.
  - unfold beacon.Start, beacon.ask.
    destruct (beacon.rejects h beacon.CStart) as [e|].
    + match goal with |- context [v1.store_handler b ?h1 ?w] =>
        destruct (Hstop (v1.logf v1.Error_ "beacon_start" (v1.store_handler b h1 w)) h1 Hb
                    (store_handler_lookup _ b h _ Hh'))
          as (v2 & h2 & Hrun & Hnone & Hh2 & Hgen & Hcalls & Hlen) end.
      eexists _, v2, h2. split; [reflexivity|]. split; [exact Hrun|].
      repeat (split; [assumption|]). split.
      * rewrite Hcalls. cbn. rewrite <- app_assoc. reflexivity.
      * rewrite Hlen. cbn. apply length_insert.
    + match goal with |- context [v1.store_handler b ?h1 ?w] =>
        destruct (Hstop (v1.store_handler b h1 w) h1 Hb (store_handler_lookup _ b h _ Hh'))
          as (v2 & h2 & Hrun & Hnone & Hh2 & Hgen & Hcalls & Hlen) end.
      eexists _, v2, h2. split; [reflexivity|]. split; [exact Hrun|].
      repeat (split; [assumption|]). split.
      * rewrite Hcalls. cbn. rewrite <- app_assoc. reflexivity.
      * rewrite Hlen. cbn. apply length_insert.
Qed.

Lemma StartBeacon_then_StopBeacon_witness :
  exists v1 v2 h2,
    v1.StartBeacon v1.newBeacon true idle = Ret v1 /\ v1.StopBeacon v1 = Ret v2 /\
    v1.beacon v2 = None /\ v1.handlers v2 !! 0%nat = Some h2 /\
    beacon.generating h2 = false /\
    beacon.calls h2 = [beacon.CCatchup; beacon.CStop] /\
    length (v1.handlers v2) = 1%nat.
Proof.
  exact (StartBeacon_then_StopBeacon v1.newBeacon true idle
           (serving group02 [handlerOf group02 (Some share0) [] false []] (Some 0%nat) [])
           0%nat (handlerOf group02 (Some share0) [] false []) eq_refl eq_refl eq_refl).
Defined.

(** After [StopBeacon] the instance serves nothing: [PublicRand],
    [PartialBeacon] and [PublicRandStream] are refused without anything
    being sent, and [SyncChain] returns without sending a round. *)
Theorem stopped_instance_serves_nothing :
  forall (sha256 : string -> string) (beaconString : chain.Beacon -> string)
         (v v' : v1.v1Protocol)
         (req : drand.PublicRandRequest) (i : drand.PartialBeaconPacket)
         (stream : Stream drand.PublicRandResponse) (il : v1.Interleaving)
         (sreq : drand.SyncRequest) (sstream : Stream chain.Beacon),
    v1.StopBeacon v = Ret v' ->
    v1.PublicRand sha256 beaconString v' req = Ret (v', Err v1.ErrNotStarted) /\
    v1.PartialBeacon v' i = Ret (v', Err "drand: beacon not setup yet") /\
    v1.PublicRandStream sha256 v' req stream il
    = Ret (v', stream, v1.Returned (Some "beacon has not started on this node yet")) /\
    v1.SyncChain v' sreq sstream = Ret (v', sstream, None).
Proof.
  intros sha256 beaconString v v' req i stream il sreq sstream Hstop.
  assert (Hnone : v1.beacon v' = None).
  { unfold v1.StopBeacon in Hstop. destruct (v1.beacon v) as [p|] eqn:Hb.
    - destruct (v1.handlerAt (Some p) v) as [ph|m]; cbn in Hstop; [|discriminate].
      injection Hstop as <-. reflexivity.
    - injection Hstop as <-. exact Hb. }
  unfold v1.PublicRand, v1.PartialBeacon, v1.PublicRandStream, v1.SyncChain.
  rewrite Hnone. repeat split; reflexivity.
Qed.

Lemma stopped_instance_serves_nothing_witness :
  v1.StopBeacon started1 = Ret stopped1 /\
  v1.PublicRand hash0 string0 stopped1 {| drand.reqRound := 0 |} = Ret (stopped1, Err v1.ErrNotStarted) /\
  v1.SyncChain stopped1 {| drand.fromRound := 0 |} syncStream0 = Ret (stopped1, syncStream0, None).
Proof.
  split; [reflexivity|].
  destruct (stopped_instance_serves_nothing hash0 string0 started1 stopped1 {| drand.reqRound := 0 |}
              (packet "") publicStream0
              {| v1.beforeCursor := []; v1.beforeCallback := []; v1.afterCallback := [] |}
              {| drand.fromRound := 0 |} syncStream0 eq_refl) as (Hrand & _ & _ & Hsync).
  split; [exact Hrand|exact Hsync].
Defined.

(** ** The public service *)

(** [PublicRand] only reads: whatever it answers, the handlers with their
    stores, the beacon, the group, the share, the session and the key store
    of the instance are as before. *)
Theorem PublicRand_only_reads :
  forall (sha256 : string -> string) (beaconString : chain.Beacon -> string)
         (v v' : v1.v1Protocol) (i : drand.PublicRandRequest)
         (r : result drand.PublicRandResponse),
    v1.PublicRand sha256 beaconString v i = Ret (v', r) ->
    v1.handlers v' = v1.handlers v /\ v1.beacon v' = v1.beacon v /\
    v1.group v' = v1.group v /\ v1.share v' = v1.share v /\
    v1.dkgInfo_ v' = v1.dkgInfo_ v /\ v1.store v' = v1.store v.
Proof.
  intros sha256 beaconString v v' i r. unfold v1.PublicRand.
  destruct (v1.beacon v) as [p|] eqn:Hb.
  - destruct (v1.handlerAt (Some p) v) as [ph|m]; cbn [bindO]; [|discriminate].
    destruct (if bool_decide (drand.reqRound i = 0%N)
              then chain.Last (beacon.store ph.2)
              else chain.Get (beacon.store ph.2) (drand.reqRound i)) as [[b|] [e|]];
      intros Heq; injection Heq as <- _; cbn; rewrite Hb; repeat split; reflexivity.
  - intros Heq. injection Heq as <- _. rewrite Hb. repeat split; reflexivity.
Qed.

Lemma PublicRand_only_reads_witness :
  exists v' r,
    v1.PublicRand hash0 string0 (servingRounds [round 1]) {| drand.reqRound := 2 |} = Ret (v', r) /\
    v1.handlers v' = v1.handlers (servingRounds [round 1]) /\
    v1.beacon v' = Some 0%nat.
Proof.
  eexists _, _. split; [reflexivity|].
  match goal with |- v1.handlers ?w = _ /\ _ =>
    destruct (PublicRand_only_reads hash0 string0 (servingRounds [round 1]) w
                {| drand.reqRound := 2 |} _ eq_refl) as (Hh & Hb & _) end.
  split; [exact Hh|exact Hb].
Defined.

(** A stream on a store whose last round cannot be read is refused with
    the error of the store, whatever round is requested, round 0 included:
    nothing is sent and the instance is as before. *)
Theorem PublicRandStream_store_error :
  forall (sha256 : string -> string) (v : v1.v1Protocol) (req : drand.PublicRandRequest)
         (stream : Stream drand.PublicRandResponse) (il : v1.Interleaving)
         (p : nat) (h : beacon.Handler) (lastb : option chain.Beacon) (err : Error),
    v1.beacon v = Some p -> v1.handlers v !! p = Some h ->
    chain.Last (beacon.store h) = (lastb, Some err) ->
    v1.PublicRandStream sha256 v req stream il = Ret (v, stream, v1.Returned (Some err)).
Proof.
  intros sha256 v req stream il p h lastb err Hb Hh Hlast. unfold v1.PublicRandStream.
  rewrite Hb, (handlerAt_Some v p h Hh). cbn [bindO fst snd]. rewrite Hlast. reflexivity.
Qed.

(** On an empty chain a subscription to round 0 is refused. *)
Lemma PublicRandStream_store_error_witness :
  v1.PublicRandStream hash0 (servingRounds []) {| drand.reqRound := 0 |} publicStream0
    {| v1.beforeCursor := []; v1.beforeCallback := []; v1.afterCallback := [round 1] |}
  = Ret (servingRounds [], publicStream0, v1.Returned (Some chain.ErrNoBeaconSaved)).
Proof.
  exact (PublicRandStream_store_error hash0 (servingRounds []) {| drand.reqRound := 0 |}
           publicStream0
           {| v1.beforeCursor := []; v1.beforeCallback := []; v1.afterCallback := [round 1] |}
           0%nat (handlerOf group02 (Some share0) [] true [beacon.CStart]) None
           chain.ErrNoBeaconSaved eq_refl eq_refl eq_refl).
Defined.

(** A transport that takes [k] messages and refuses the next one sends the
    first [k] messages of a longer list and stops with the error. *)
Lemma sendAll_breaks {M : Type} (ms : list M) :
  forall (s : Stream M) (k : nat) (e : Error),
    (forall j, (j < k)%nat -> sendErr s (length (sent s) + j) = None) ->
    sendErr s (length (sent s) + k) = Some e -> (k < length ms)%nat ->
    sendAll s ms
    = ({| sent := sent s ++ take k ms; sendErr := sendErr s; remote := remote s |}, Some e).
Proof.
  induction ms as [|m ms IH]; intros s k e Hok Hbad Hk; [simpl in Hk; lia|].
  simpl. unfold Send. destruct k as [|k].
  - rewrite Nat.add_0_r in Hbad. rewrite Hbad. cbn. rewrite app_nil_r.
    destruct s; reflexivity.
  - pose proof (Hok 0%nat ltac:(lia)) as H0. rewrite Nat.add_0_r in H0. rewrite H0.
    rewrite (IH _ k e).
    + cbn. rewrite <- app_assoc. reflexivity.
    + intros j Hj. cbn. rewrite length_app. cbn.
      replace (length (sent s) + 1 + j)%nat with (length (sent s) + S j)%nat by lia.
      apply Hok. lia.
    + cbn. rewrite length_app. cbn.
      replace (length (sent s) + 1 + k)%nat with (length (sent s) + S k)%nat by lia.
      exact Hbad.
    + simpl in Hk. lia.
Qed.

Lemma callbacks_produceAll (h : beacon.Handler) (bs : list chain.Beacon) :
  beacon.callbacks (foldl beacon.produce h bs) = beacon.callbacks h.
Proof.
  revert h. induction bs as [|b bs IH]; intros h; [reflexivity|].
  simpl. rewrite IH. reflexivity.
Qed.

(** When the transport breaks during the replay, after [k] rounds, the
    subscriber has received the first [k] rounds of the replay, the call
    returns the error of the transport, and no callback was registered for
    the subscriber: it will not be sent anything else. *)
Theorem PublicRandStream_transport_breaks_in_replay :
  forall (sha256 : string -> string) (v : v1.v1Protocol) (req : drand.PublicRandRequest)
         (stream : Stream drand.PublicRandResponse) (il : v1.Interleaving)
         (p : nat) (h : beacon.Handler) (lastb : chain.Beacon) (k : nat) (e : Error),
    v1.beacon v = Some p -> v1.handlers v !! p = Some h ->
    last (beacon.store h) = Some lastb ->
    drand.reqRound req <> 0%N -> (drand.reqRound req <= chain.Round lastb)%N ->
    (k < length (chain.Seek (storeAfter (beacon.store h) (v1.beforeCursor il))
                   (drand.reqRound req)))%nat ->
    (forall j, (j < k)%nat -> sendErr stream (length (sent stream) + j) = None) ->
    sendErr stream (length (sent stream) + k) = Some e ->
    exists v' h',
      v1.PublicRandStream sha256 v req stream il
      = Ret (v',
             {| sent := sent stream ++
                  (v1.beaconToProto sha256 <$>
                     take k (chain.Seek (storeAfter (beacon.store h) (v1.beforeCursor il))
                               (drand.reqRound req)));
                sendErr := sendErr stream; remote := remote stream |},
             v1.Returned (Some e)) /\
      v1.handlers v' !! p = Some h' /\
      beacon.callbacks h' = beacon.callbacks h.
Proof.
  intros sha256 v req stream il p h lastb k e Hb Hh Hlast Hnz Hle Hk Hok Hbad.
  unfold v1.PublicRandStream.
  rewrite Hb, (handlerAt_Some v p h Hh). cbn [bindO fst snd].
  unfold chain.Last. rewrite Hlast.
  destruct (produceAll_lookup p (v1.beforeCursor il) (v1.logf v1.Debug "request" v) h Hh)
    as (Hh1 & Hb1).
  rewrite (bool_decide_eq_false_2 _ Hnz). cbn [bindO deref].
  rewrite (bool_decide_eq_true_2 _ Hle), (handlerAt_Some _ p _ Hh1).
  cbn [bindO fst snd]. rewrite store_produceAll.
  rewrite (sendAll_breaks _ stream k e Hok Hbad) by (rewrite length_fmap; exact Hk).
  eexists _, _. split; [rewrite fmap_take; reflexivity|].
  split; [exact Hh1|apply callbacks_produceAll].
Qed.

Lemma PublicRandStream_transport_breaks_in_replay_witness :
  exists v' h',
    v1.PublicRandStream hash0 (servingRounds rounds1to10) {| drand.reqRound := 5 |}
      (breaksAfter 2)
      {| v1.beforeCursor := []; v1.beforeCallback := []; v1.afterCallback := [round 11] |}
    = Ret (v',
           {| sent := v1.beaconToProto hash0 <$> rounds [5; 6]%N;
              sendErr := sendErr (breaksAfter 2); remote := remote (breaksAfter 2) |},
           v1.Returned (Some "transport is closing")) /\
    v1.handlers v' !! 0%nat = Some h' /\ beacon.callbacks h' = [].
Proof.
  destruct (PublicRandStream_transport_breaks_in_replay hash0 (servingRounds rounds1to10)
              {| drand.reqRound := 5 |} (breaksAfter 2)
              {| v1.beforeCursor := []; v1.beforeCallback := [];
                 v1.afterCallback := [round 11] |}
              0%nat (handlerOf group02 (Some share0) rounds1to10 true [beacon.CStart])
              (round 10) 2%nat "transport is closing" eq_refl eq_refl eq_refl
              ltac:(discriminate) ltac:(vm_compute; discriminate) ltac:(vm_compute; lia))
    as (v' & h' & Hrun & Hh & Hcb).
  - intros j Hj. destruct j as [|[|j]]; [reflexivity|reflexivity|lia].
  - reflexivity.
  - exists v', h'. split; [exact Hrun|]. split; [exact Hh|exact Hcb].
Defined.

(** When the first send of the live phase fails, the callback of the
    subscriber is dropped and the call returns the error of the transport;
    the rounds the generator completes are stored all the same. *)
Theorem PublicRandStream_live_failure_drops_callback :
  forall (sha256 : string -> string) (v : v1.v1Protocol) (req : drand.PublicRandRequest)
         (stream : Stream drand.PublicRandResponse) (il : v1.Interleaving)
         (p : nat) (h : beacon.Handler) (lastb : chain.Beacon) (b : chain.Beacon)
         (bs : list chain.Beacon) (e : Error),
    v1.beacon v = Some p -> v1.handlers v !! p = Some h ->
    last (beacon.store h) = Some lastb ->
    drand.reqRound req = 0%N -> v1.afterCallback il = b :: bs ->
    sendErr stream (length (sent stream)) = Some e ->
    exists v' h',
      v1.PublicRandStream sha256 v req stream il
      = Ret (v', stream, v1.Returned (Some e)) /\
      v1.handlers v' !! p = Some h' /\
      (remote stream ∉ beacon.callbacks h') /\
      beacon.store h'
      = storeAfter (beacon.store h) (v1.beforeCursor il ++ v1.beforeCallback il ++ b :: bs).
Proof.
  intros sha256 v req stream il p h lastb b bs e Hb Hh Hlast Hz Hafter Hbad.
  unfold v1.PublicRandStream.
  rewrite Hb, (handlerAt_Some v p h Hh). cbn [bindO fst snd].
  unfold chain.Last. rewrite Hlast, Hafter.
  rewrite (bool_decide_eq_true_2 _ Hz). cbn [bindO fmap list_fmap sendAll].
  destruct (produceAll_lookup p (v1.beforeCursor il) (v1.logf v1.Debug "request" v) h Hh)
    as (Hh1 & Hb1).
  destruct (produceAll_lookup p (v1.beforeCallback il) _ _ Hh1) as (Hh2 & Hb2).
  assert (Hb3 : v1.beacon (v1.produceAll p (v1.beforeCallback il)
                  (v1.produceAll p (v1.beforeCursor il) (v1.logf v1.Debug "request" v)))
                = Some p) by (rewrite Hb2, Hb1; exact Hb).
  rewrite Hb3, (handlerAt_Some _ p _ Hh2). cbn [bindO fst snd v1.live].
  unfold Send. rewrite Hbad.
  match goal with |- context [v1.store_handler p (beacon.AddCallback ?h2 ?a) ?w] =>
    pose proof (store_handler_lookup w p _ (beacon.AddCallback h2 a) Hh2) as Hh3 end.
  destruct (produceAll_lookup p [b] _ _ Hh3) as (Hh4 & _).
  rewrite Hh4.
  match goal with |- context [v1.store_handler p (beacon.RemoveCallback ?h4 ?a) ?w] =>
    pose proof (store_handler_lookup w p _ (beacon.RemoveCallback h4 a) Hh4) as Hh5 end.
  destruct (produceAll_lookup p bs _ _ Hh5) as (Hh6 & _).
  eexists _, _. split; [reflexivity|]. split; [exact Hh6|]. split.
  - rewrite callbacks_produceAll. unfold beacon.RemoveCallback.
    cbn [beacon.callbacks beacon.update].
    intros Hin. apply list_elem_of_filter in Hin as [Hne _]. apply Hne. reflexivity.
  - rewrite store_produceAll. cbn. rewrite !store_produceAll.
    unfold storeAfter. rewrite !foldl_app. reflexivity.
Qed.

Lemma PublicRandStream_live_failure_drops_callback_witness :
  exists v' h',
    v1.PublicRandStream hash0 (servingRounds (rounds [1; 2; 3]%N)) {| drand.reqRound := 0 |}
      brokenStream
      {| v1.beforeCursor := []; v1.beforeCallback := [];
         v1.afterCallback := [round 4; round 5] |}
    = Ret (v', brokenStream, v1.Returned (Some "transport is closing")) /\
    v1.handlers v' !! 0%nat = Some h' /\
    (remote brokenStream ∉ beacon.callbacks h') /\
    beacon.store h' = rounds [1; 2; 3; 4; 5]%N.
Proof.
  exact (PublicRandStream_live_failure_drops_callback hash0 (servingRounds (rounds [1; 2; 3]%N))
           {| drand.reqRound := 0 |} brokenStream
           {| v1.beforeCursor := []; v1.beforeCallback := [];
              v1.afterCallback := [round 4; round 5] |}
           0%nat (handlerOf group02 (Some share0) (rounds [1; 2; 3]%N) true [beacon.CStart])
           (round 3) (round 4) [round 5] "transport is closing"
           eq_refl eq_refl eq_refl eq_refl eq_refl eq_refl).
Defined.
